(** * Ledger signer of starknet.py: derivation paths and the APDU exchanges

    A shallow embedding of [starknet_py/net/signer/ledger_signer.py]:
    the derivation-path parser and encoder, the three device operations of
    [LedgerStarknetApp] and the construction of [LedgerSigner], followed by
    the properties the specification states about them.

    Python values are embedded as follows.
    - [int] is [Z] (unbounded); shifts and bitwise or are [Z.shiftl], [Z.lor].
    - [bytes] is [list byte]; indexing a byte yields its value as an [int].
    - [str] is [string], read as a sequence of code points below 256; text
      with other characters is outside the model.
    - a raised exception is the [Raise] branch of [result].
    - the device behind [LedgerClient] is an abstract state with an abstract
      exchange function; every command handed to it is appended to a log. *)

From Stdlib Require Import ZArith List String Ascii Bool Lia.
From Stdlib Require Import Strings.Byte Decimal DecimalString.
Import ListNotations.

Open Scope string_scope.
Open Scope list_scope.
Open Scope Z_scope.

(* ================================================================= *)
(** ** Python primitives used by the module *)

Module Py.

(** Exceptions the module can raise or let through.  The three
    [ValueError]s that come from library calls keep their argument instead
    of a formatted message. *)
Inductive exn : Type :=
| ValueError (msg : string)
    (** [raise ValueError(msg)] written in the module itself *)
| IntLiteralError (literal : string)
    (** the [ValueError] of [int(literal)]: a malformed literal, or one of
        more than 4300 digits *)
| KeyIndexError (idx : Z)
    (** the [ValueError] of [Bip32KeyIndex(idx)] on an index out of range *)
| OverflowError (msg : string)
    (** [int.to_bytes] on a negative or too large integer *)
| IndexError
    (** subscript out of range *)
| DeviceError (code : Z).
    (** anything the Ledger client raises, identified by a code *)

Inductive result (A : Type) : Type :=
| Ok (a : A)
| Raise (e : exn).
Arguments Ok {A} a.
Arguments Raise {A} e.

Definition bind {A B} (r : result A) (k : A -> result B) : result B :=
  match r with
  | Ok a => k a
  | Raise e => Raise e
  end.

Definition bytes := list byte.

Definition int_of_byte (b : byte) : Z := Z.of_N (Byte.to_N b).

Definition byte_of_int (x : Z) : byte :=
  match Byte.of_N (Z.to_N (x mod 256)) with
  | Some b => b
  | None => x00
  end.

(** The [length] low-order base-256 digits of [x], most significant
    first. *)
Fixpoint be_digits (length : nat) (x : Z) : bytes :=
  match length with
  | O => []
  | S k => be_digits k (x / 256) ++ [byte_of_int x]
  end.

(** [x.to_bytes(length, byteorder="big")], unsigned. *)
Definition int_to_bytes (x : Z) (length : nat) : result bytes :=
  if x <? 0 then
    Raise (OverflowError "can't convert negative int to unsigned")
  else if 256 ^ Z.of_nat length <=? x then
    Raise (OverflowError "int too big to convert")
  else Ok (be_digits length x).

(** [int.from_bytes(bs, byteorder="big")], unsigned. *)
Definition int_from_bytes (bs : bytes) : Z :=
  fold_left (fun acc b => acc * 256 + int_of_byte b) bs 0.

(** [l[lo:hi]] for [0 <= lo <= hi]; like Python it truncates silently
    when the sequence is too short. *)
Definition slice {A} (lo hi : nat) (l : list A) : list A :=
  firstn (hi - lo) (skipn lo l).

(** [len(l)] *)
Definition len {A} (l : list A) : Z := Z.of_nat (List.length l).

(** [l[i]] for [0 <= i]. *)
Definition getitem {A} (l : list A) (i : nat) : result A :=
  match nth_error l i with
  | Some a => Ok a
  | None => Raise IndexError
  end.

(** [str(x)], as an f-string formats an integer. *)
Definition str (x : Z) : string :=
  NilZero.string_of_int (Z.to_int x).

(** *** Strings *)

Fixpoint mem_char (c : ascii) (chars : string) : bool :=
  match chars with
  | EmptyString => false
  | String d rest => Ascii.eqb c d || mem_char c rest
  end.

(** [s.lstrip(chars)]: drops leading characters while they belong to the
    set [chars] (a set of characters, not a prefix). *)
Fixpoint lstrip (chars : string) (s : string) : string :=
  match s with
  | EmptyString => EmptyString
  | String c rest => if mem_char c chars then lstrip chars rest else s
  end.

(** [s.split(sep)] for a one-character separator: always at least one
    piece, empty pieces are kept. *)
Fixpoint split (sep : ascii) (s : string) : list string :=
  match s with
  | EmptyString => [EmptyString]
  | String c rest =>
      if Ascii.eqb c sep then EmptyString :: split sep rest
      else match split sep rest with
           | [] => [String c EmptyString]
           | piece :: pieces => String c piece :: pieces
           end
  end.

(** [s.endswith(c)] for a one-character suffix. *)
Fixpoint endswith (s : string) (c : ascii) : bool :=
  match s with
  | EmptyString => false
  | String d EmptyString => Ascii.eqb d c
  | String _ rest => endswith rest c
  end.

(** [s[:-1]] *)
Fixpoint drop_last (s : string) : string :=
  match s with
  | EmptyString => EmptyString
  | String _ EmptyString => EmptyString
  | String c rest => String c (drop_last rest)
  end.

(** *** [int(s)] on a string, base 10

    Surrounding white space is ignored, one sign may precede the digits,
    single underscores may separate digits, and a literal of more than
    [MAX_STR_DIGITS] digits is refused. *)

(** The default of [sys.get_int_max_str_digits()]. *)
Definition MAX_STR_DIGITS : Z := 4300.

(** The white space of [int] among the code points below 256: tab to
    carriage return, space, next line ([0x85]) and no-break space
    ([0xA0]). *)
Definition is_space (c : ascii) : bool :=
  let n := nat_of_ascii c in
  ((9 <=? n)%nat && (n <=? 13)%nat) || (n =? 32)%nat
  || (n =? 133)%nat || (n =? 160)%nat.

Definition digit_value (c : ascii) : option Z :=
  let n := nat_of_ascii c in
  if ((48 <=? n)%nat && (n <=? 57)%nat) then Some (Z.of_nat n - 48)
  else None.

Definition lstrip_space : string -> string :=
  fix go (s : string) : string :=
    match s with
    | EmptyString => EmptyString
    | String c rest => if is_space c then go rest else s
    end.

Fixpoint rstrip_space (s : string) : string :=
  match s with
  | EmptyString => EmptyString
  | String c rest =>
      match rstrip_space rest with
      | EmptyString => if is_space c then EmptyString else String c EmptyString
      | rest' => String c rest'
      end
  end.

(** Digits with optional single underscores between them; [after_us]
    records that the previous character was an underscore. *)
Fixpoint digits_value (acc : Z) (after_us : bool) (s : string) : option Z :=
  match s with
  | EmptyString => if after_us then None else Some acc
  | String c rest =>
      if Ascii.eqb c "_" then
        if after_us then None else digits_value acc true rest
      else
        match digit_value c with
        | Some d => digits_value (acc * 10 + d) false rest
        | None => None
        end
  end.

(** The number of digit characters; underscores do not count, leading
    zeros do. *)
Fixpoint count_digits (s : string) : Z :=
  match s with
  | EmptyString => 0
  | String c rest =>
      match digit_value c with
      | Some _ => 1 + count_digits rest
      | None => count_digits rest
      end
  end.

Definition unsigned_literal (body : string) : option Z :=
  match body with
  | EmptyString => None
  | String c _ =>
      if Ascii.eqb c "_" then None
      else if MAX_STR_DIGITS <? count_digits body then None
      else digits_value 0 false body
  end.

Definition int_literal (s : string) : option Z :=
  match rstrip_space (lstrip_space s) with
  | EmptyString => None
  | String c body as text =>
      if Ascii.eqb c "-" then option_map Z.opp (unsigned_literal body)
      else if Ascii.eqb c "+" then unsigned_literal body
      else unsigned_literal text
  end.

Definition int (s : string) : result Z :=
  match int_literal s with
  | Some v => Ok v
  | None => Raise (IntLiteralError s)
  end.

End Py.

Import Py.

Notation "x <- e ;; k" := (Py.bind e (fun x => k))
  (at level 61, e at next level, right associativity).


(* ================================================================= *)
(** ** The parts of [bip_utils] the module calls *)

Module Bip.

Definition KEY_INDEX_MAX_VAL : Z := 2 ^ 32 - 1.
Definition KEY_INDEX_HARDENED_BIT_NUM : Z := 31.

(** The test of [Bip32KeyIndex.__init__]:
    [idx < 0 or idx > KEY_INDEX_MAX_VAL]. *)
Definition invalid_index (idx : Z) : bool :=
  (idx <? 0) || (KEY_INDEX_MAX_VAL <? idx).

(** A [Bip32KeyIndex] object: it only exists for an index that passed the
    constructor's test. *)
Record Bip32KeyIndex : Type := MkKeyIndex {
  m_idx : Z;
  m_idx_checked : invalid_index m_idx = false
}.

(** [Bip32KeyIndex(idx)] *)
Definition Bip32KeyIndex_init (idx : Z) : result Bip32KeyIndex :=
  match invalid_index idx as b return invalid_index idx = b -> _ with
  | true => fun _ => Raise (KeyIndexError idx)
  | false => fun checked => Ok (MkKeyIndex idx checked)
  end eq_refl.

(** [Bip32Utils.HardenIndex(index)]: sets bit 31. *)
Definition HardenIndex (index : Z) : Z :=
  Z.lor index (Z.shiftl 1 KEY_INDEX_HARDENED_BIT_NUM).

(** [index.ToBytes()]: [m_idx.to_bytes(4, "big")]. *)
Definition ToBytes (index : Bip32KeyIndex) : result bytes :=
  int_to_bytes (m_idx index) 4.

(** [index == other] for an [int] on the right. *)
Definition eq_int (index : Bip32KeyIndex) (other : Z) : bool :=
  m_idx index =? other.

Record Bip32Path : Type := MkPath {
  m_elems : list Bip32KeyIndex;
  m_is_absolute : bool
}.

(** [Bip32Path(elems)]; [is_absolute] defaults to [True]. *)
Definition Bip32Path_init (elems : list Bip32KeyIndex) : Bip32Path :=
  MkPath elems true.

End Bip.

Import Bip.

(* ================================================================= *)
(** ** Constants imported from [starknet_py.constants] *)

Module Constants.

(** Modelled from the spec: [starknet_py/constants.py] is not among the
    sources.  A derivation path has exactly 6 elements. *)
Definition EIP_2645_PATH_LENGTH : Z := 6.

(** Modelled from the spec: [starknet_py/constants.py] is not among the
    sources.  Element 0 of a path must equal the hardened encoding of the
    purpose 2645, that is [0x80000A55]. *)
Definition EIP_2645_PURPOSE : Z := HardenIndex 2645.

(** Modelled from the spec: [starknet_py/constants.py] is not among the
    sources.  A signature response has 65 bytes, [SIGNATURE_LENGTH + 1],
    and its tag byte is 64. *)
Definition SIGNATURE_LENGTH : Z := 64.

(** Modelled from the spec: [starknet_py/constants.py] is not among the
    sources.  A version response has exactly 3 bytes. *)
Definition VERSION_LENGTH : Z := 3.

End Constants.

Import Constants.

(* ================================================================= *)
(** ** [starknet_py/net/signer/ledger_signer.py] *)

Module Ledger.

(** *** The two module-level functions *)

(** One turn of the [for part in path_parts] loop: the index of [part]
    wrapped in a [Bip32KeyIndex]. *)
Definition parse_part (part : string) : result Bip32KeyIndex :=
  index <- (if endswith part "'"
            then n <- int (drop_last part) ;; Ok (HardenIndex n)
            else int part) ;;
  Bip32KeyIndex_init index.

(** The loop itself, appending to [path_elements]. *)
Fixpoint parse_parts (path_parts : list string)
    (path_elements : list Bip32KeyIndex) : result (list Bip32KeyIndex) :=
  match path_parts with
  | [] => Ok path_elements
  | part :: rest =>
      element <- parse_part part ;;
      parse_parts rest (path_elements ++ [element])
  end.

Definition is_empty (s : string) : bool :=
  match s with
  | EmptyString => true
  | String _ _ => false
  end.

Definition _parse_derivation_path_str (derivation_path_str : string)
    : result Bip32Path :=
  if is_empty derivation_path_str then
    Raise (ValueError "Empty derivation path")
  else
    let path_parts := split "/" (lstrip "m/" derivation_path_str) in
    path_elements <- parse_parts path_parts [] ;;
    if negb (len path_elements =? EIP_2645_PATH_LENGTH) then
      Raise (ValueError ("Derivation path is not "
                         ++ str EIP_2645_PATH_LENGTH ++ "-level long")%string)
    else
      first <- getitem path_elements 0 ;;
      if negb (eq_int first EIP_2645_PURPOSE) then
        Raise (ValueError "Derivation path is not prefixed with m/2645.")
      else Ok (Bip32Path_init path_elements).

(** [b"".join(index.ToBytes() for index in derivation_path)] *)
Fixpoint to_bytes_each (elems : list Bip32KeyIndex) : result (list bytes) :=
  match elems with
  | [] => Ok []
  | index :: rest =>
      chunk <- ToBytes index ;;
      chunks <- to_bytes_each rest ;;
      Ok (chunk :: chunks)
  end.

Definition _derivation_path_to_bytes (derivation_path : Bip32Path)
    : result bytes :=
  chunks <- to_bytes_each (m_elems derivation_path) ;;
  Ok (List.concat chunks).

(** *** The device *)

(** What [apdu_exchange] hands to the transport. *)
Record Apdu : Type := MkApdu {
  cla : Z;
  ins : Z;
  p1 : Z;
  p2 : Z;
  data : bytes
}.

Record LedgerClient : Type := MkClient { client_cla : Z }.

Record LedgerStarknetApp : Type := MkApp { client : LedgerClient }.

Section Device.

(** The state of whatever is plugged in, opening a client on it and one
    command/response exchange; all three belong to [ledgerwallet]. *)
Variable Dev : Type.
Variable connect : Z -> Dev -> Dev * result unit.
Variable transport : Apdu -> Dev -> Dev * result bytes.

(** The two constants of [starknet_py.constants] the specification
    gives no value for. *)
Variable STARKNET_CLA : Z.
Variable PUBLIC_KEY_LENGTH : Z.

(** The hashing collaborators. *)
Variable ChainId AccountTransaction TypedData : Type.
Variable calculate_hash : AccountTransaction -> ChainId -> Z.
Variable message_hash : TypedData -> Z -> Z.

(** The device together with the log of every command handed to the
    transport, oldest first. *)
Record World : Type := MkWorld {
  device : Dev;
  sent : list Apdu
}.

(** Computations that talk to the device and may raise. *)
Definition M (A : Type) : Type := World -> World * result A.

Definition ret {A} (a : A) : M A := fun w => (w, Ok a).

Definition raise {A} (e : exn) : M A := fun w => (w, Raise e).

Definition lift {A} (r : result A) : M A := fun w => (w, r).

Definition mbind {A B} (m : M A) (k : A -> M B) : M B :=
  fun w =>
    match m w with
    | (w', Ok a) => k a w'
    | (w', Raise e) => (w', Raise e)
    end.

Local Notation "x <~ m ;; k" := (mbind m (fun x => k))
  (at level 61, m at next level, right associativity).

(** [LedgerClient(cla=cla)] *)
Definition LedgerClient_init (cla : Z) : M LedgerClient :=
  fun w =>
    let (d, r) := connect cla (device w) in
    (MkWorld d (sent w), _ <- r ;; Ok (MkClient cla)).

(** [self.apdu_exchange(ins, data, p1, p2)] *)
Definition apdu_exchange (self : LedgerClient)
    (ins : Z) (data : bytes) (p1 p2 : Z) : M bytes :=
  fun w =>
    let command := MkApdu (client_cla self) ins p1 p2 data in
    let (d, r) := transport command (device w) in
    (MkWorld d (sent w ++ [command]), r).

(** [LedgerStarknetApp.__init__] *)
Definition LedgerStarknetApp_init : M LedgerStarknetApp :=
  client <~ LedgerClient_init STARKNET_CLA ;;
  ret (MkApp client).

Definition unexpected_length (expected actual : Z) : string :=
  ("Unexpected response length (expected: " ++ str expected
     ++ ", actual: " ++ str actual)%string.

(** [LedgerStarknetApp.version] *)
Definition version (self : LedgerStarknetApp) : M string :=
  response <~ apdu_exchange (client self) 0 [] 0 0 ;;
  if negb (len response =? VERSION_LENGTH) then
    raise (ValueError (unexpected_length VERSION_LENGTH (len response)))
  else
    match response with
    | [major; minor; patch] =>
        ret (str (int_of_byte major) ++ "." ++ str (int_of_byte minor)
               ++ "." ++ str (int_of_byte patch))%string
    | _ :: _ :: _ :: _ :: _ =>
        raise (ValueError "too many values to unpack (expected 3)")
    | _ =>
        raise (ValueError
                 ("not enough values to unpack (expected 3, got "
                    ++ str (len response) ++ ")")%string)
    end.

(** [LedgerStarknetApp.get_public_key] *)
Definition get_public_key (self : LedgerStarknetApp)
    (derivation_path : Bip32Path) (device_confirmation : bool) : M Z :=
  data <~ lift (_derivation_path_to_bytes derivation_path) ;;
  response <~ apdu_exchange (client self)
                1 data (if device_confirmation then 0 else 0) 0 ;;
  if negb (len response =? PUBLIC_KEY_LENGTH) then
    raise (ValueError (unexpected_length PUBLIC_KEY_LENGTH (len data)))
  else
    ret (int_from_bytes (slice 1 33 response)).

(** [LedgerStarknetApp.sign_hash] *)
Definition sign_hash (self : LedgerStarknetApp)
    (derivation_path : Bip32Path) (hash_val : Z) : M (list Z) :=
  data <~ lift (_derivation_path_to_bytes derivation_path) ;;
  _ <~ apdu_exchange (client self) 0 data 0 0 ;;
  let shifted_int := Z.shiftl hash_val 4 in
  shifted_bytes <~ lift (int_to_bytes shifted_int 32) ;;
  response <~ apdu_exchange (client self) 2 shifted_bytes 1 0 ;;
  bad <~ (if negb (len response =? SIGNATURE_LENGTH + 1) then ret true
          else tag <~ lift (getitem response 0) ;;
               ret (negb (int_of_byte tag =? SIGNATURE_LENGTH))) ;;
  if (bad : bool) then
    raise (ValueError (unexpected_length SIGNATURE_LENGTH (len response)))
  else
    let r := int_from_bytes (slice 1 33 response) in
    let s := int_from_bytes (slice 33 65 response) in
    ret [r; s].

Record LedgerSigner : Type := MkSigner {
  app : LedgerStarknetApp;
  derivation_path : Bip32Path;
  chain_id : ChainId
}.

(** [LedgerSigner.__init__] *)
Definition LedgerSigner_init (derivation_path_str : string)
    (chain_id : ChainId) : M LedgerSigner :=
  app <~ LedgerStarknetApp_init ;;
  derivation_path <~ lift (_parse_derivation_path_str derivation_path_str) ;;
  ret (MkSigner app derivation_path chain_id).

Definition public_key (self : LedgerSigner) : M Z :=
  get_public_key (app self) (derivation_path self) false.

Definition sign_transaction (self : LedgerSigner)
    (transaction : AccountTransaction) : M (list Z) :=
  let tx_hash := calculate_hash transaction (chain_id self) in
  sign_hash (app self) (derivation_path self) tx_hash.

Definition sign_message (self : LedgerSigner)
    (typed_data : TypedData) (account_address : Z) : M (list Z) :=
  let msg_hash := message_hash typed_data account_address in
  sign_hash (app self) (derivation_path self) msg_hash.

End Device.

Arguments MkWorld {Dev} device sent.
Arguments device {Dev} w.
Arguments sent {Dev} w.
Arguments ret {Dev A}.
Arguments raise {Dev A}.
Arguments lift {Dev A}.
Arguments mbind {Dev A B}.
Arguments LedgerClient_init {Dev}.
Arguments apdu_exchange {Dev}.
Arguments LedgerStarknetApp_init {Dev}.
Arguments version {Dev}.
Arguments get_public_key {Dev}.
Arguments sign_hash {Dev}.
Arguments MkSigner {ChainId}.
Arguments app {ChainId}.
Arguments derivation_path {ChainId}.
Arguments chain_id {ChainId}.
Arguments LedgerSigner_init {Dev} connect STARKNET_CLA {ChainId}.
Arguments public_key {Dev} transport PUBLIC_KEY_LENGTH {ChainId}.
Arguments sign_transaction {Dev} transport {ChainId AccountTransaction}.
Arguments sign_message {Dev} transport {ChainId TypedData}.

(** *** A scripted device

    A device that answers the successive exchanges with the responses of
    a script, whatever it is sent; it serves to run the operations on
    concrete responses. *)
Definition Script : Type := list (result bytes).

Definition script_connect (_ : Z) (d : Script) : Script * result unit :=
  (d, Ok tt).

Definition script_transport (_ : Apdu) (d : Script)
    : Script * result bytes :=
  match d with
  | [] => ([], Raise (DeviceError 0))
  | response :: rest => (rest, response)
  end.

End Ledger.

Import Ledger.

(* ================================================================= *)
(** ** Vocabulary of the properties *)

(** The value of [path_elements] when the loop of
    [_parse_derivation_path_str] ends on [derivation_path_str]: the
    elements the string yields once the root marker is stripped and the
    rest is split on the separator. *)
Definition path_elements (derivation_path_str : string)
    : result (list Bip32KeyIndex) :=
  parse_parts (split "/" (lstrip "m/" derivation_path_str)) [].

Definition empty_path_error : exn :=
  ValueError "Empty derivation path".

Definition length_error : exn :=
  ValueError "Derivation path is not 6-level long".

Definition prefix_error : exn :=
  ValueError "Derivation path is not prefixed with m/2645.".

(** The encoding the specification describes: each element as 4 bytes, big
    endian, in path order. *)
Definition encoding_of (elems : list Bip32KeyIndex) : bytes :=
  List.concat (map (fun index => be_digits 4 (m_idx index)) elems).

(** The three commands of the wire protocol, as the operations build
    them. *)
Definition public_key_command (self : LedgerStarknetApp) (path : Bip32Path)
    : Apdu :=
  MkApdu (client_cla (client self)) 1 0 0 (encoding_of (m_elems path)).

Definition register_path_command (self : LedgerStarknetApp)
    (path : Bip32Path) : Apdu :=
  MkApdu (client_cla (client self)) 0 0 0 (encoding_of (m_elems path)).

Definition sign_command (self : LedgerStarknetApp) (payload : bytes) : Apdu :=
  MkApdu (client_cla (client self)) 2 1 0 payload.

(** A signature response as the protocol frames it: [SIGNATURE_LENGTH + 1]
    bytes, the first of which is the tag [SIGNATURE_LENGTH]. *)
Definition well_framed_signature (response : bytes) : bool :=
  (len response =? SIGNATURE_LENGTH + 1)
  && match response with
     | tag :: _ => int_of_byte tag =? SIGNATURE_LENGTH
     | [] => false
     end.

(** *** Path strings as the external interface writes them

    [m/2645'/p1/p2/p3/p4/p5] where each [p] is a run of decimal digits
    with or without a closing apostrophe: that is the syntax
    ([well_formed_path_string]).  A valid string ([valid_path_string]) is
    moreover one whose runs have at most 4300 digits and denote at most
    [2^32 - 1]. *)
Module PathSyntax.

Definition is_digit (c : ascii) : bool :=
  let n := nat_of_ascii c in ((48 <=? n)%nat && (n <=? 57)%nat).

Fixpoint all_digits (s : string) : bool :=
  match s with
  | EmptyString => true
  | String c rest => is_digit c && all_digits rest
  end.

(** The number a run of digits denotes, continuing from [acc]. *)
Fixpoint decimal (acc : Z) (s : string) : Z :=
  match s with
  | EmptyString => acc
  | String c rest => decimal (acc * 10 + (Z.of_nat (nat_of_ascii c) - 48)) rest
  end.

Definition hardened (part : string) : bool := endswith part "'".

Definition digits_of (part : string) : string :=
  if hardened part then drop_last part else part.

Definition well_formed_element (part : string) : bool :=
  negb (is_empty (digits_of part)) && all_digits (digits_of part).

Definition valid_element (part : string) : bool :=
  well_formed_element part
  && (Z.of_nat (String.length (digits_of part)) <=? 4300)
  && (decimal 0 (digits_of part) <=? 2 ^ 32 - 1).

(** The index an element denotes. *)
Definition element_index (part : string) : Z :=
  let n := decimal 0 (digits_of part) in
  if hardened part then Z.lor n (2 ^ 31) else n.

Definition valid_path_string (s : string) : bool :=
  match s with
  | String c1 (String c2 body) =>
      Ascii.eqb c1 "m" && Ascii.eqb c2 "/"
      && match split "/" body with
         | purpose :: rest =>
             String.eqb purpose "2645'"
             && (List.length rest =? 5)%nat
             && forallb valid_element rest
         | [] => false
         end
  | _ => false
  end.

Definition well_formed_path_string (s : string) : bool :=
  match s with
  | String c1 (String c2 body) =>
      Ascii.eqb c1 "m" && Ascii.eqb c2 "/"
      && match split "/" body with
         | purpose :: rest =>
             String.eqb purpose "2645'"
             && (List.length rest =? 5)%nat
             && forallb well_formed_element rest
         | [] => false
         end
  | _ => false
  end.

End PathSyntax.

(** *** The end-to-end scenario

    The path [m/2645'/1195502025'/1470455285'/0'/0'/0] on a scripted
    device that answers the signing exchange with a 65-byte response: the
    tag 64, then the two halves of a signature. *)
Definition scenario_path_str : string :=
  "m/2645'/1195502025'/1470455285'/0'/0'/0".

Definition scenario_path : Bip32Path :=
  Bip32Path_init
    [MkKeyIndex 2147486293 eq_refl; MkKeyIndex 3342985673 eq_refl;
     MkKeyIndex 3617938933 eq_refl; MkKeyIndex 2147483648 eq_refl;
     MkKeyIndex 2147483648 eq_refl; MkKeyIndex 0 eq_refl].

Definition scenario_app : LedgerStarknetApp := MkApp (MkClient 90).

Definition scenario_r : Z :=
  1231860030827562948342601600669869070017827455913155333389589057030189412625.

Definition scenario_s : Z :=
  3110958317425095235086592303140741645899537277051254642480166255506094576272.

Definition scenario_signature : bytes :=
  x40 :: be_digits 32 scenario_r ++ be_digits 32 scenario_s.

Definition scenario_public_key : bytes :=
  x04 :: be_digits 32 scenario_r ++ be_digits 32 scenario_s.

(** A run of [n] zeros, to reach the digit limit of [int]. *)
Fixpoint zeros (n : nat) : string :=
  match n with
  | O => EmptyString
  | S k => String "0" (zeros k)
  end.

(** A device about to answer one signing: an empty acknowledgement, then
    [response]. *)
Definition signing_device (response : bytes) : World Script :=
  MkWorld [Ok []; Ok response] [].

(* ================================================================= *)
(** ** Bytes and integers *)

Section BytesFacts.

Lemma int_of_byte_range (b : byte) : 0 <= int_of_byte b < 256.
Proof.
  unfold int_of_byte. pose proof (Byte.to_N_bounded b). lia.
Qed.

Lemma int_of_byte_of_int (x : Z) : int_of_byte (byte_of_int x) = x mod 256.
Proof.
  unfold int_of_byte, byte_of_int.
  assert (Hr : 0 <= x mod 256 < 256) by (apply Z.mod_pos_bound; lia).
  destruct (Byte.of_N (Z.to_N (x mod 256))) as [b|] eqn:E.
  - apply Byte.to_of_N in E. rewrite E. lia.
  - apply Byte.of_N_None_iff in E. lia.
Qed.

Lemma be_digits_length (n : nat) (x : Z) : List.length (be_digits n x) = n.
Proof.
  revert x. induction n as [|n IH]; intros x; simpl.
  - reflexivity.
  - rewrite length_app, IH. simpl. lia.
Qed.

Lemma int_from_bytes_snoc (bs : bytes) (b : byte) :
  int_from_bytes (bs ++ [b]) = int_from_bytes bs * 256 + int_of_byte b.
Proof.
  unfold int_from_bytes. rewrite fold_left_app. reflexivity.
Qed.

(** Decoding the [n] digits of [x] gives back [x] up to [256 ^ n]. *)
Lemma int_from_bytes_be_digits (n : nat) (x : Z) :
  int_from_bytes (be_digits n x) = x mod 256 ^ Z.of_nat n.
Proof.
  revert x. induction n as [|n IH]; intros x.
  - simpl. rewrite Z.mod_1_r. reflexivity.
  - cbn [be_digits]. rewrite int_from_bytes_snoc, IH, int_of_byte_of_int.
    rewrite Nat2Z.inj_succ, Z.pow_succ_r by lia.
    rewrite (Z.rem_mul_r x 256 (256 ^ Z.of_nat n)) by lia.
    lia.
Qed.

Lemma int_to_bytes_in_range (x : Z) (n : nat) :
  0 <= x < 256 ^ Z.of_nat n -> int_to_bytes x n = Ok (be_digits n x).
Proof.
  intros [Hlo Hhi]. unfold int_to_bytes.
  destruct (Z.ltb_spec x 0); [lia|].
  destruct (Z.leb_spec (256 ^ Z.of_nat n) x); [lia|].
  reflexivity.
Qed.

Lemma int_to_bytes_negative (x : Z) (n : nat) :
  x < 0 ->
  int_to_bytes x n
  = Raise (OverflowError "can't convert negative int to unsigned").
Proof.
  intros H. unfold int_to_bytes.
  destruct (Z.ltb_spec x 0); [reflexivity|lia].
Qed.

Lemma int_to_bytes_too_big (x : Z) (n : nat) :
  256 ^ Z.of_nat n <= x ->
  int_to_bytes x n = Raise (OverflowError "int too big to convert").
Proof.
  intros H. unfold int_to_bytes.
  assert (0 < 256 ^ Z.of_nat n) by (apply Z.pow_pos_nonneg; lia).
  destruct (Z.ltb_spec x 0); [lia|].
  destruct (Z.leb_spec (256 ^ Z.of_nat n) x); [reflexivity|lia].
Qed.

End BytesFacts.

(* ================================================================= *)
(** ** Encoding a path never fails *)

Section Encoding.

Lemma key_index_range (index : Bip32KeyIndex) : 0 <= m_idx index < 2 ^ 32.
Proof.
  destruct index as [idx Hc]. simpl.
  unfold invalid_index, KEY_INDEX_MAX_VAL in Hc.
  apply orb_false_iff in Hc. destruct Hc as [H1 H2].
  apply Z.ltb_ge in H1. apply Z.ltb_ge in H2. lia.
Qed.

Lemma ToBytes_ok (index : Bip32KeyIndex) :
  ToBytes index = Ok (be_digits 4 (m_idx index)).
Proof.
  unfold ToBytes. apply int_to_bytes_in_range.
  pose proof (key_index_range index) as H.
  change (256 ^ Z.of_nat 4) with (2 ^ 32). exact H.
Qed.

Lemma to_bytes_each_ok (elems : list Bip32KeyIndex) :
  to_bytes_each elems
  = Ok (map (fun index => be_digits 4 (m_idx index)) elems).
Proof.
  induction elems as [|index rest IH]; simpl.
  - reflexivity.
  - rewrite ToBytes_ok. simpl. rewrite IH. reflexivity.
Qed.

Lemma derivation_path_to_bytes_ok (path : Bip32Path) :
  _derivation_path_to_bytes path = Ok (encoding_of (m_elems path)).
Proof.
  unfold _derivation_path_to_bytes. rewrite to_bytes_each_ok. reflexivity.
Qed.

Lemma encoding_of_length (elems : list Bip32KeyIndex) :
  List.length (encoding_of elems) = (4 * List.length elems)%nat.
Proof.
  unfold encoding_of.
  induction elems as [|index rest IH]; cbn [map List.concat List.length].
  - reflexivity.
  - rewrite length_app, be_digits_length, IH. lia.
Qed.

Lemma encoding_of_len (elems : list Bip32KeyIndex) :
  len (encoding_of elems) = 4 * len elems.
Proof.
  unfold len. rewrite encoding_of_length. lia.
Qed.

End Encoding.

(* ================================================================= *)
(** ** The checks of [_parse_derivation_path_str] and their order *)

Section ParseChecks.

(** Appending to a non-empty accumulator is the same as appending
    afterwards. *)
Lemma parse_parts_acc (parts : list string) (acc : list Bip32KeyIndex) :
  parse_parts parts acc
  = (elems <- parse_parts parts [] ;; Ok (acc ++ elems)).
Proof.
  revert acc. induction parts as [|part rest IH]; intros acc.
  - simpl. rewrite app_nil_r. reflexivity.
  - cbn [parse_parts]. destruct (parse_part part) as [element|e]; simpl.
    + rewrite (IH (acc ++ [element])), (IH [element]).
      destruct (parse_parts rest []) as [elems|e]; simpl.
      * rewrite <- app_assoc. reflexivity.
      * reflexivity.
    + reflexivity.
Qed.

Lemma path_elements_empty : path_elements "" = Raise (IntLiteralError "").
Proof. reflexivity. Qed.

(** What the function returns once the loop has produced [elems]: the
    length test, then the purpose test. *)
Lemma parse_after_loop (s : string) (elems : list Bip32KeyIndex) :
  path_elements s = Ok elems ->
  _parse_derivation_path_str s =
    if negb (len elems =? EIP_2645_PATH_LENGTH) then Raise length_error
    else match elems with
         | first :: _ =>
             if negb (eq_int first EIP_2645_PURPOSE) then Raise prefix_error
             else Ok (Bip32Path_init elems)
         | [] => Raise IndexError
         end.
Proof.
  intros Hloop. unfold _parse_derivation_path_str.
  destruct s as [|c s'].
  - rewrite path_elements_empty in Hloop. discriminate.
  - cbn [is_empty]. unfold path_elements in Hloop. rewrite Hloop.
    cbn [bind]. destruct (negb (len elems =? EIP_2645_PATH_LENGTH)).
    + reflexivity.
    + destruct elems as [|first rest]; reflexivity.
Qed.

(** When the loop raises, so does the function, with the same exception,
    unless the string is empty. *)
Lemma parse_loop_raises (s : string) (e : exn) :
  s <> "" ->
  path_elements s = Raise e ->
  _parse_derivation_path_str s = Raise e.
Proof.
  intros Hne Hloop. unfold _parse_derivation_path_str.
  destruct s as [|c s']; [congruence|].
  cbn [is_empty]. unfold path_elements in Hloop. rewrite Hloop. reflexivity.
Qed.

(** The loop itself never raises a [ValueError] carrying a message of the
    module. *)
Lemma parse_part_not_ValueError (part : string) (msg : string) :
  parse_part part <> Raise (ValueError msg).
Proof.
  unfold parse_part, int, Bip32KeyIndex_init.
  destruct (endswith part "'").
  - destruct (int_literal (drop_last part)) as [n|]; simpl; [|discriminate].
    generalize (@eq_refl bool (invalid_index (HardenIndex n))).
    generalize (invalid_index (HardenIndex n)) at 2 3.
    intros [|] H; discriminate.
  - destruct (int_literal part) as [n|]; simpl; [|discriminate].
    generalize (@eq_refl bool (invalid_index n)).
    generalize (invalid_index n) at 2 3.
    intros [|] H; discriminate.
Qed.

Lemma parse_parts_not_ValueError (parts : list string)
    (acc : list Bip32KeyIndex) (msg : string) :
  parse_parts parts acc <> Raise (ValueError msg).
Proof.
  revert acc. induction parts as [|part rest IH]; intros acc; simpl.
  - discriminate.
  - destruct (parse_part part) as [element|e] eqn:E; simpl.
    + apply IH.
    + intros H. injection H as ->. exact (parse_part_not_ValueError _ _ E).
Qed.

End ParseChecks.

(* ================================================================= *)
(** ** Properties of the derivation-path parser *)

(** C7: parsing the empty string fails with the empty-path error, and the
    emptiness test comes before every other validation.  The empty string
    would also fail the element parsing ([int] of an empty piece), yet the
    error raised is the empty-path one; and no other string raises it. *)
Theorem parse_empty_string_checked_first :
  _parse_derivation_path_str "" = Raise empty_path_error
  /\ path_elements "" = Raise (IntLiteralError "")
  /\ (forall s, _parse_derivation_path_str s = Raise empty_path_error <-> s = "").
Proof.
  split; [reflexivity|]. split; [reflexivity|].
  intros s. split; [|intros ->; reflexivity].
  intros H. destruct s as [|c s']; [reflexivity|exfalso].
  destruct (path_elements (String c s')) as [elems|e] eqn:Hloop.
  - rewrite (parse_after_loop _ _ Hloop) in H.
    destruct (negb (len elems =? EIP_2645_PATH_LENGTH)); [discriminate|].
    destruct elems as [|first rest]; [discriminate|].
    destruct (negb (eq_int first EIP_2645_PURPOSE)); discriminate.
  - rewrite (parse_loop_raises _ e) in H by (assumption || discriminate).
    injection H as ->.
    exact (parse_parts_not_ValueError _ _ _ Hloop).
Qed.

(* ================================================================= *)
(** ** Well-written path strings parse *)

Section ValidPaths.

Import PathSyntax.

Lemma digit_facts (c : ascii) :
  is_digit c = true ->
  is_space c = false
  /\ Ascii.eqb c "-" = false
  /\ Ascii.eqb c "+" = false
  /\ Ascii.eqb c "_" = false
  /\ digit_value c = Some (Z.of_nat (nat_of_ascii c) - 48).
Proof.
  intros Hd. unfold is_digit in Hd.
  repeat split.
  - unfold is_space.
    apply andb_true_iff in Hd. destruct Hd as [H1 H2].
    apply Nat.leb_le in H1. apply Nat.leb_le in H2.
    repeat (apply orb_false_iff; split).
    + apply andb_false_iff. right. apply Nat.leb_gt. lia.
    + apply Nat.eqb_neq. lia.
    + apply Nat.eqb_neq. lia.
    + apply Nat.eqb_neq. lia.
  - destruct (Ascii.eqb_spec c "-") as [->|]; [discriminate|reflexivity].
  - destruct (Ascii.eqb_spec c "+") as [->|]; [discriminate|reflexivity].
  - destruct (Ascii.eqb_spec c "_") as [->|]; [discriminate|reflexivity].
  - unfold digit_value. rewrite Hd. reflexivity.
Qed.

Lemma rstrip_space_digits (s : string) :
  all_digits s = true -> rstrip_space s = s.
Proof.
  induction s as [|c rest IH]; intros H; [reflexivity|].
  cbn [all_digits] in H. apply andb_true_iff in H. destruct H as [Hc Hrest].
  cbn [rstrip_space]. rewrite (IH Hrest).
  destruct rest as [|d rest']; [|reflexivity].
  destruct (digit_facts c Hc) as [-> _]. reflexivity.
Qed.

Lemma digits_value_digits (s : string) (acc : Z) :
  all_digits s = true -> digits_value acc false s = Some (decimal acc s).
Proof.
  revert acc. induction s as [|c rest IH]; intros acc H; [reflexivity|].
  cbn [all_digits] in H. apply andb_true_iff in H. destruct H as [Hc Hrest].
  destruct (digit_facts c Hc) as (_ & _ & _ & Hus & Hv).
  cbn [digits_value decimal]. rewrite Hus, Hv. apply IH. exact Hrest.
Qed.

Lemma count_digits_digits (s : string) :
  all_digits s = true -> count_digits s = Z.of_nat (String.length s).
Proof.
  induction s as [|c rest IH]; intros H; [reflexivity|].
  cbn [all_digits] in H. apply andb_true_iff in H. destruct H as [Hc Hrest].
  destruct (digit_facts c Hc) as (_ & _ & _ & _ & Hv).
  cbn [count_digits String.length]. rewrite Hv, (IH Hrest). lia.
Qed.

(** [int] reads a run of at most 4300 digits as the number it denotes. *)
Lemma int_of_digits (body : string) :
  is_empty body = false ->
  all_digits body = true ->
  Z.of_nat (String.length body) <= 4300 ->
  int body = Ok (decimal 0 body).
Proof.
  intros Hne Hd Hcount. destruct body as [|c rest]; [discriminate|].
  pose proof Hd as Hall.
  cbn [all_digits] in Hd. apply andb_true_iff in Hd. destruct Hd as [Hc _].
  destruct (digit_facts c Hc) as (Hsp & Hm & Hp & Hus & _).
  unfold int, int_literal.
  assert (Hl : lstrip_space (String c rest) = String c rest)
    by (cbn; rewrite Hsp; reflexivity).
  rewrite Hl, (rstrip_space_digits _ Hall), Hm, Hp.
  unfold unsigned_literal. rewrite Hus, (count_digits_digits _ Hall).
  unfold MAX_STR_DIGITS.
  destruct (Z.ltb_spec 4300 (Z.of_nat (String.length (String c rest))));
    [lia|].
  rewrite (digits_value_digits _ 0 Hall). reflexivity.
Qed.

(** [int] refuses a run of more than 4300 digits. *)
Lemma int_of_too_many_digits (body : string) :
  all_digits body = true ->
  4300 < Z.of_nat (String.length body) ->
  int body = Raise (IntLiteralError body).
Proof.
  intros Hd Hcount. destruct body as [|c rest]; [cbn in Hcount; lia|].
  pose proof Hd as Hall.
  cbn [all_digits] in Hd. apply andb_true_iff in Hd. destruct Hd as [Hc _].
  destruct (digit_facts c Hc) as (Hsp & Hm & Hp & Hus & _).
  unfold int, int_literal.
  assert (Hl : lstrip_space (String c rest) = String c rest)
    by (cbn; rewrite Hsp; reflexivity).
  rewrite Hl, (rstrip_space_digits _ Hall), Hm, Hp.
  unfold unsigned_literal. rewrite Hus, (count_digits_digits _ Hall).
  unfold MAX_STR_DIGITS.
  destruct (Z.ltb_spec 4300 (Z.of_nat (String.length (String c rest))));
    [reflexivity|lia].
Qed.

Lemma decimal_nonneg (s : string) (acc : Z) :
  all_digits s = true -> 0 <= acc -> 0 <= decimal acc s.
Proof.
  revert acc. induction s as [|c rest IH]; intros acc H Hacc; [exact Hacc|].
  cbn [all_digits] in H. apply andb_true_iff in H. destruct H as [Hc Hrest].
  cbn [decimal]. apply IH; [exact Hrest|].
  unfold is_digit in Hc. apply andb_true_iff in Hc. destruct Hc as [H1 _].
  apply Nat.leb_le in H1. lia.
Qed.

Lemma harden_in_range (n : Z) :
  0 <= n < 2 ^ 32 -> 0 <= HardenIndex n < 2 ^ 32.
Proof.
  intros [Hlo Hhi]. unfold HardenIndex, KEY_INDEX_HARDENED_BIT_NUM.
  change (Z.shiftl 1 31) with (2 ^ 31).
  assert (Hnn : 0 <= Z.lor n (2 ^ 31)) by (apply Z.lor_nonneg; lia).
  split; [exact Hnn|].
  assert (Hpos : 0 < Z.lor n (2 ^ 31)).
  { destruct (Z.eq_dec (Z.lor n (2 ^ 31)) 0) as [E|E]; [|lia].
    apply Z.lor_eq_0_iff in E. destruct E as [_ E]. discriminate E. }
  apply Z.log2_lt_pow2; [exact Hpos|].
  rewrite Z.log2_lor by lia.
  change (Z.log2 (2 ^ 31)) with 31.
  destruct (Z.eq_dec n 0) as [->|Hn0]; [reflexivity|].
  assert (Z.log2 n < 32) by (apply Z.log2_lt_pow2; lia).
  lia.
Qed.

Lemma Bip32KeyIndex_init_in_range (idx : Z) :
  0 <= idx < 2 ^ 32 ->
  exists index, Bip32KeyIndex_init idx = Ok index /\ m_idx index = idx.
Proof.
  intros [Hlo Hhi].
  assert (Hv : invalid_index idx = false).
  { unfold invalid_index, KEY_INDEX_MAX_VAL.
    apply orb_false_iff. split; apply Z.ltb_ge; lia. }
  unfold Bip32KeyIndex_init.
  generalize (@eq_refl bool (invalid_index idx)).
  generalize (invalid_index idx) at 2 3.
  intros [|] H; [congruence|].
  eexists. split; reflexivity.
Qed.

Lemma parse_part_valid (part : string) :
  valid_element part = true ->
  exists index,
    parse_part part = Ok index /\ m_idx index = element_index part.
Proof.
  unfold valid_element, well_formed_element, element_index, digits_of,
    hardened, parse_part.
  intros H.
  apply andb_true_iff in H. destruct H as [H Hmax].
  apply andb_true_iff in H. destruct H as [H Hcount].
  apply andb_true_iff in H. destruct H as [Hne Hd].
  apply negb_true_iff in Hne. apply Z.leb_le in Hmax.
  apply Z.leb_le in Hcount.
  destruct (endswith part "'").
  - rewrite (int_of_digits _ Hne Hd Hcount). cbn [bind].
    pose proof (decimal_nonneg _ 0 Hd (Z.le_refl 0)) as Hnn.
    destruct (Bip32KeyIndex_init_in_range (HardenIndex (decimal 0 (drop_last part))))
      as (index & Hi & Hm); [apply harden_in_range; lia|].
    exists index. split; [exact Hi|]. rewrite Hm. reflexivity.
  - rewrite (int_of_digits _ Hne Hd Hcount).
    pose proof (decimal_nonneg _ 0 Hd (Z.le_refl 0)) as Hnn.
    destruct (Bip32KeyIndex_init_in_range (decimal 0 part))
      as (index & Hi & Hm); [lia|].
    exists index. split; [exact Hi|exact Hm].
Qed.

Lemma parse_parts_valid (parts : list string) :
  forallb valid_element parts = true ->
  exists elems,
    parse_parts parts [] = Ok elems
    /\ map m_idx elems = map element_index parts.
Proof.
  induction parts as [|part rest IH]; intros H.
  - exists []. split; reflexivity.
  - cbn [forallb] in H. apply andb_true_iff in H. destruct H as [Hp Hrest].
    destruct (parse_part_valid _ Hp) as (index & Hi & Hm).
    destruct (IH Hrest) as (elems & He & Hms).
    exists (index :: elems). split.
    + cbn [parse_parts]. rewrite Hi. cbn [bind app].
      rewrite parse_parts_acc, He. reflexivity.
    + cbn [map]. rewrite Hm, Hms. reflexivity.
Qed.

(** The first piece of a split starts like the string. *)
Lemma split_head (sep c : ascii) (body piece : string) (pieces : list string) :
  split sep body = String c piece :: pieces ->
  exists body', body = String c body'.
Proof.
  destruct body as [|d body']; cbn [split]; [discriminate|].
  destruct (Ascii.eqb d sep); [discriminate|].
  destruct (split sep body'); intros H; injection H as -> _ _; eauto.
Qed.

End ValidPaths.

(** C8, amended: a six-element path string prefixed with the hardened
    purpose 2645 whose other elements are runs of at most 4300 digits that
    denote at most [2^32 - 1], with or without a closing apostrophe,
    parses, and the encoding of the parsed path is 24 bytes long: its six
    elements, each as 4 bytes big endian, in path order.  The elements are
    the indices the string writes. *)
Theorem valid_path_encodes_to_24_bytes (s : string) :
  PathSyntax.valid_path_string s = true ->
  exists path encoded,
    _parse_derivation_path_str s = Ok path
    /\ _derivation_path_to_bytes path = Ok encoded
    /\ len encoded = 24
    /\ len (m_elems path) = 6
    /\ encoded = encoding_of (m_elems path)
    /\ map m_idx (m_elems path)
       = map PathSyntax.element_index (split "/" (lstrip "m/" s)).
Proof.
  intros Hvalid. unfold PathSyntax.valid_path_string in Hvalid.
  destruct s as [|c1 [|c2 body]]; try discriminate.
  apply andb_true_iff in Hvalid. destruct Hvalid as [Hhead Hbody].
  apply andb_true_iff in Hhead. destruct Hhead as [Hm Hslash].
  apply Ascii.eqb_eq in Hm. apply Ascii.eqb_eq in Hslash. subst c1 c2.
  destruct (split "/" body) as [|purpose rest] eqn:Hsplit; [discriminate|].
  apply andb_true_iff in Hbody. destruct Hbody as [Hbody Hrest].
  apply andb_true_iff in Hbody. destruct Hbody as [Hpurpose Hlen].
  apply String.eqb_eq in Hpurpose. subst purpose.
  apply Nat.eqb_eq in Hlen.
  destruct (split_head _ _ _ _ _ Hsplit) as (body' & ->).
  assert (Hstrip : lstrip "m/" (String "m" (String "/" (String "2" body')))
                   = String "2" body') by reflexivity.
  destruct (parse_parts_valid _ Hrest) as (elems & Helems & Hidx).
  assert (Hn : List.length elems = 5%nat).
  { rewrite <- Hlen, <- (length_map m_idx elems), Hidx. apply length_map. }
  destruct (parse_part "2645'") as [first|e] eqn:Hfirst;
    [|vm_compute in Hfirst; discriminate].
  assert (Hp : m_idx first = EIP_2645_PURPOSE).
  { vm_compute in Hfirst. injection Hfirst as <-. reflexivity. }
  assert (Hloop : path_elements (String "m" (String "/" (String "2" body')))
                  = Ok (first :: elems)).
  { unfold path_elements. rewrite Hstrip, Hsplit.
    cbn [parse_parts]. rewrite Hfirst. cbn [bind app].
    rewrite parse_parts_acc, Helems. reflexivity. }
  exists (Bip32Path_init (first :: elems)), (encoding_of (first :: elems)).
  split.
  { rewrite (parse_after_loop _ _ Hloop).
    unfold len, eq_int. cbn [List.length]. rewrite Hn, Hp.
    rewrite Z.eqb_refl. reflexivity. }
  split; [apply derivation_path_to_bytes_ok|].
  split; [rewrite encoding_of_len; unfold len; cbn [List.length]; rewrite Hn;
          reflexivity|].
  split; [unfold len; cbn [m_elems Bip32Path_init List.length]; rewrite Hn;
          reflexivity|].
  split; [reflexivity|].
  rewrite Hstrip, Hsplit. cbn [m_elems Bip32Path_init map].
  rewrite Hidx, Hp. reflexivity.
Qed.

(** The path of the end-to-end scenario. *)
Lemma valid_path_encodes_to_24_bytes_witness :
  exists path encoded,
    _parse_derivation_path_str "m/2645'/1195502025'/1470455285'/0'/0'/0"
    = Ok path
    /\ _derivation_path_to_bytes path = Ok encoded
    /\ len encoded = 24
    /\ len (m_elems path) = 6
    /\ encoded = encoding_of (m_elems path)
    /\ map m_idx (m_elems path)
       = map PathSyntax.element_index
           (split "/" (lstrip "m/" "m/2645'/1195502025'/1470455285'/0'/0'/0")).
Proof.
  apply valid_path_encodes_to_24_bytes. reflexivity.
Defined.

(** C8, what fails: a string of the written syntax, six elements behind
    [m/2645'], all of them runs of digits, whose second element is [2^32]:
    the parser raises the error of [Bip32KeyIndex]. *)
Lemma well_formed_path_refused :
  PathSyntax.well_formed_path_string "m/2645'/4294967296/0/0/0/0" = true
  /\ _parse_derivation_path_str "m/2645'/4294967296/0/0/0/0"
     = Raise (KeyIndexError 4294967296).
Proof. split; reflexivity. Qed.

(* ================================================================= *)
(** ** The length and purpose tests, after the loop *)

Section LengthAndPurpose.

Import PathSyntax.

(** What the loop yields on well-written pieces. *)
Lemma path_elements_valid (s : string) :
  forallb valid_element (split "/" (lstrip "m/" s)) = true ->
  exists elems,
    path_elements s = Ok elems
    /\ map m_idx elems = map element_index (split "/" (lstrip "m/" s))
    /\ List.length elems = List.length (split "/" (lstrip "m/" s)).
Proof.
  intros Hvalid. destruct (parse_parts_valid _ Hvalid) as (elems & He & Hm).
  exists elems. split; [exact He|]. split; [exact Hm|].
  rewrite <- (length_map m_idx elems), Hm. apply length_map.
Qed.

(** When the loop raises, the error is none of the module's own. *)
Lemma loop_error_passes (s : string) (e : exn) (msg : string) :
  s <> "" ->
  path_elements s = Raise e ->
  _parse_derivation_path_str s = Raise e /\ e <> ValueError msg.
Proof.
  intros Hne Hloop. split; [exact (parse_loop_raises _ _ Hne Hloop)|].
  intros ->. exact (parse_parts_not_ValueError _ _ _ Hloop).
Qed.

End LengthAndPurpose.

(** C6, amended: a path string whose pieces all parse and number other
    than 6 fails with the length error, whatever its first element is (so
    also when the purpose prefix is right): the length test precedes the
    purpose test.  That holds in particular when every piece is a
    well-written element.  When a piece does not parse, the loop raises
    that piece's error before the length is looked at. *)
Theorem parse_wrong_length_fails (s : string) :
  (forall elems,
     path_elements s = Ok elems ->
     len elems <> 6 ->
     _parse_derivation_path_str s = Raise length_error)
  /\ (forallb PathSyntax.valid_element (split "/" (lstrip "m/" s)) = true ->
      List.length (split "/" (lstrip "m/" s)) <> 6%nat ->
      _parse_derivation_path_str s = Raise length_error)
  /\ (forall e,
        s <> "" ->
        path_elements s = Raise e ->
        _parse_derivation_path_str s = Raise e /\ e <> length_error).
Proof.
  assert (Hgen : forall elems,
             path_elements s = Ok elems -> len elems <> 6 ->
             _parse_derivation_path_str s = Raise length_error).
  { intros elems Hloop Hlen. rewrite (parse_after_loop _ _ Hloop).
    unfold EIP_2645_PATH_LENGTH.
    destruct (Z.eqb_spec (len elems) 6); [contradiction|reflexivity]. }
  split; [exact Hgen|]. split.
  - intros Hvalid Hcount.
    destruct (path_elements_valid _ Hvalid) as (elems & Hloop & _ & Hlen).
    apply (Hgen elems Hloop). unfold len. lia.
  - intros e Hne Hloop. exact (loop_error_passes _ _ _ Hne Hloop).
Qed.

(** The seven-element path of the unit test, whose prefix is right. *)
Lemma parse_wrong_length_fails_witness :
  _parse_derivation_path_str "m/2645'/1195502025'/1470455285'/0'/0'/0/0"
  = Raise length_error.
Proof.
  refine (proj1 (proj2 (parse_wrong_length_fails
                          "m/2645'/1195502025'/1470455285'/0'/0'/0/0")) _ _).
  - reflexivity.
  - vm_compute. discriminate.
Defined.

(** C6, what fails: seven pieces behind the right prefix, the last of them
    empty; the error is the one of [int], not the length error. *)
Lemma seven_pieces_not_length_error :
  List.length (split "/" (lstrip "m/" "m/2645'/0/0/0/0/0/")) = 7%nat
  /\ _parse_derivation_path_str "m/2645'/0/0/0/0/0/"
     = Raise (IntLiteralError "")
  /\ _parse_derivation_path_str "m/2645'/0/0/0/0/0/" <> Raise length_error.
Proof.
  split; [reflexivity|]. split; [reflexivity|]. discriminate.
Qed.

(** C3, amended: for a path string whose six pieces all parse, parsing
    succeeds when the first element, hardened as its marker says, equals
    the hardened purpose 2645, and fails with the prefix error when it does
    not; with another number of elements the prefix error is never the
    outcome, the length test coming first.  In particular six well-written
    elements give the path of the indices they denote, or the prefix error.
    When a piece does not parse, the loop raises that piece's error and
    neither test is reached. *)
Theorem parse_purpose_check (s : string) :
  (forall first rest,
     path_elements s = Ok (first :: rest) ->
     (len rest = 5 ->
        (m_idx first = EIP_2645_PURPOSE ->
           _parse_derivation_path_str s
           = Ok (Bip32Path_init (first :: rest)))
        /\ (m_idx first <> EIP_2645_PURPOSE ->
           _parse_derivation_path_str s = Raise prefix_error))
     /\ (len rest <> 5 ->
         _parse_derivation_path_str s <> Raise prefix_error))
  /\ (forallb PathSyntax.valid_element (split "/" (lstrip "m/" s)) = true ->
      List.length (split "/" (lstrip "m/" s)) = 6%nat ->
      (PathSyntax.element_index (hd "" (split "/" (lstrip "m/" s)))
       = EIP_2645_PURPOSE ->
       exists path,
         _parse_derivation_path_str s = Ok path
         /\ map m_idx (m_elems path)
            = map PathSyntax.element_index (split "/" (lstrip "m/" s)))
      /\ (PathSyntax.element_index (hd "" (split "/" (lstrip "m/" s)))
          <> EIP_2645_PURPOSE ->
          _parse_derivation_path_str s = Raise prefix_error))
  /\ (forall e,
        s <> "" ->
        path_elements s = Raise e ->
        _parse_derivation_path_str s = Raise e /\ e <> prefix_error).
Proof.
  assert (Hgen : forall first rest,
             path_elements s = Ok (first :: rest) -> len rest = 5 ->
             _parse_derivation_path_str s
             = if m_idx first =? EIP_2645_PURPOSE
               then Ok (Bip32Path_init (first :: rest))
               else Raise prefix_error).
  { intros first rest Hloop Hlen. rewrite (parse_after_loop _ _ Hloop).
    unfold EIP_2645_PATH_LENGTH, len, eq_int. cbn [List.length].
    destruct (Z.eqb_spec (Z.of_nat (S (List.length rest))) 6) as [_|Hne];
      [|unfold len in Hlen; lia].
    cbn [negb]. destruct (m_idx first =? EIP_2645_PURPOSE); reflexivity. }
  split; [|split].
  - intros first rest Hloop. split.
    + intros Hlen. rewrite (Hgen _ _ Hloop Hlen).
      destruct (Z.eqb_spec (m_idx first) EIP_2645_PURPOSE);
        split; intros H; solve [reflexivity | contradiction].
    + intros Hlen. rewrite (parse_after_loop _ _ Hloop).
      unfold EIP_2645_PATH_LENGTH, len. cbn [List.length].
      destruct (Z.eqb_spec (Z.of_nat (S (List.length rest))) 6) as [Heq|_];
        [unfold len in Hlen; lia|].
      discriminate.
  - intros Hvalid Hcount.
    destruct (path_elements_valid _ Hvalid) as (elems & Hloop & Hm & Hlen).
    destruct elems as [|first rest]; [cbn in Hlen; lia|].
    assert (Hrest : len rest = 5)
      by (unfold len; cbn [List.length] in Hlen; lia).
    assert (Hfirst : PathSyntax.element_index
                       (hd "" (split "/" (lstrip "m/" s)))
                     = m_idx first).
    { destruct (split "/" (lstrip "m/" s)) as [|piece pieces];
        [discriminate Hm|].
      cbn [map hd] in Hm |- *. injection Hm as Hm _. symmetry. exact Hm. }
    rewrite Hfirst, (Hgen _ _ Hloop Hrest). split.
    + intros Hp. exists (Bip32Path_init (first :: rest)).
      rewrite Hp, Z.eqb_refl. split; [reflexivity|exact Hm].
    + intros Hp.
      destruct (Z.eqb_spec (m_idx first) EIP_2645_PURPOSE);
        [contradiction|reflexivity].
  - intros e Hne Hloop. exact (loop_error_passes _ _ _ Hne Hloop).
Qed.

(** The six-element path of the unit test whose purpose is 1234: it is
    refused with the prefix error. *)
Lemma parse_purpose_check_witness :
  _parse_derivation_path_str "m/1234'/1195502025'/1470455285'/0'/0'/0"
  = Raise prefix_error.
Proof.
  refine (proj2 (proj1 (proj2 (parse_purpose_check
                                 "m/1234'/1195502025'/1470455285'/0'/0'/0"))
                   _ _) _).
  - reflexivity.
  - reflexivity.
  - vm_compute. discriminate.
Defined.

(** C3, what fails: six pieces, the first of which is the hardened
    purpose; the second is no number, and the error is the one of [int]:
    the string does not parse, and the error is not the prefix error
    either. *)
Lemma six_pieces_not_parsed :
  List.length (split "/" (lstrip "m/" "m/2645'/x/0/0/0/0")) = 6%nat
  /\ (exists first,
        parse_part "2645'" = Ok first /\ m_idx first = EIP_2645_PURPOSE)
  /\ _parse_derivation_path_str "m/2645'/x/0/0/0/0"
     = Raise (IntLiteralError "x").
Proof.
  split; [reflexivity|]. split; [|reflexivity].
  eexists. split; reflexivity.
Qed.

(* ================================================================= *)
(** ** Properties of the device operations *)

Section DeviceProperties.

Variable Dev : Type.
Variable connect : Z -> Dev -> Dev * result unit.
Variable transport : Apdu -> Dev -> Dev * result bytes.
Variable STARKNET_CLA : Z.
Variable PUBLIC_KEY_LENGTH : Z.
Variable ChainId : Type.

Lemma apdu_exchange_run (self : LedgerClient) (ins p1 p2 : Z) (data : bytes)
    (w : World Dev) (d : Dev) (r : result bytes) :
  transport (MkApdu (client_cla self) ins p1 p2 data) (device w) = (d, r) ->
  apdu_exchange transport self ins data p1 p2 w
  = (MkWorld d (sent w ++ [MkApdu (client_cla self) ins p1 p2 data]), r).
Proof.
  intros H. unfold apdu_exchange. rewrite H. reflexivity.
Qed.


Lemma shifted_hash_range (hash_val : Z) :
  0 <= hash_val < 2 ^ 252 ->
  0 <= Z.shiftl hash_val 4 < 256 ^ Z.of_nat 32.
Proof.
  intros H. rewrite Z.shiftl_mul_pow2 by lia.
  change (256 ^ Z.of_nat 32) with (2 ^ 252 * 2 ^ 4). lia.
Qed.

(** The state in which [sign_hash] stops when the hash cannot be encoded:
    the first exchange is done, the second never starts. *)
Lemma sign_hash_until_encoding (self : LedgerStarknetApp) (path : Bip32Path)
    (hash_val : Z) (w : World Dev) (d1 : Dev) (ack : bytes) (e : exn) :
  transport (register_path_command self path) (device w) = (d1, Ok ack) ->
  int_to_bytes (Z.shiftl hash_val 4) 32 = Raise e ->
  sign_hash transport self path hash_val w
  = (MkWorld d1 (sent w ++ [register_path_command self path]), Raise e).
Proof.
  intros H1 He. unfold sign_hash, mbind, lift.
  rewrite derivation_path_to_bytes_ok.
  rewrite (apdu_exchange_run _ _ _ _ _ _ _ _ H1), He. reflexivity.
Qed.

(** What [sign_hash] does once both exchanges went through. *)
Lemma sign_hash_run (self : LedgerStarknetApp) (path : Bip32Path)
    (hash_val : Z) (w : World Dev) (d1 d2 : Dev) (ack : bytes)
    (r : result bytes) :
  0 <= hash_val < 2 ^ 252 ->
  transport (register_path_command self path) (device w) = (d1, Ok ack) ->
  transport (sign_command self (be_digits 32 (Z.shiftl hash_val 4))) d1
  = (d2, r) ->
  sign_hash transport self path hash_val w
  = (MkWorld d2 (sent w ++ [register_path_command self path;
                            sign_command self
                              (be_digits 32 (Z.shiftl hash_val 4))]),
     response <- r ;;
     if well_framed_signature response
     then Ok [int_from_bytes (slice 1 33 response);
              int_from_bytes (slice 33 65 response)]
     else Raise (ValueError
                   (unexpected_length SIGNATURE_LENGTH (len response)))).
Proof.
  intros Hh H1 H2. unfold sign_hash, mbind, lift.
  rewrite derivation_path_to_bytes_ok.
  rewrite (apdu_exchange_run _ _ _ _ _ _ _ _ H1).
  rewrite (int_to_bytes_in_range _ _ (shifted_hash_range _ Hh)).
  cbn beta iota. fold (register_path_command self path).
  rewrite (apdu_exchange_run (client self) 2 1 0 _
             (MkWorld d1 (sent w ++ [register_path_command self path])) d2 r H2).
  cbn [sent]. rewrite <- app_assoc. cbn [app].
  destruct r as [response|e]; [|reflexivity].
  cbn [bind]. unfold well_framed_signature, ret, raise, getitem.
  destruct (len response =? SIGNATURE_LENGTH + 1) eqn:Hlen; cbn [negb andb].
  - destruct response as [|tag rest]; [discriminate Hlen|].
    cbn [nth_error]. destruct (int_of_byte tag =? SIGNATURE_LENGTH);
      reflexivity.
  - reflexivity.
Qed.


(** C2: for a hash [H] that [sign_hash] accepts, the payload of the phase-2
    command is the 32-byte big-endian encoding of [H << 4]: 32 bytes that
    read back as [H << 4].  The payload is [int_to_bytes (H << 4) 32], in
    which neither the path, nor the application object, nor the device
    occurs. *)
Theorem sign_hash_payload (self : LedgerStarknetApp) (path : Bip32Path)
    (hash_val : Z) (w : World Dev) (d1 : Dev) (ack : bytes) :
  0 <= hash_val < 2 ^ 252 ->
  transport (register_path_command self path) (device w) = (d1, Ok ack) ->
  exists payload,
    int_to_bytes (Z.shiftl hash_val 4) 32 = Ok payload
    /\ sent (fst (sign_hash transport self path hash_val w))
       = sent w ++ [register_path_command self path;
                    sign_command self payload]
    /\ len payload = 32
    /\ int_from_bytes payload = Z.shiftl hash_val 4.
Proof.
  intros Hh H1.
  pose proof (shifted_hash_range _ Hh) as Hr.
  exists (be_digits 32 (Z.shiftl hash_val 4)).
  split; [apply int_to_bytes_in_range; exact Hr|].
  split.
  - destruct (transport (sign_command self (be_digits 32 (Z.shiftl hash_val 4)))
                d1) as [d2 r] eqn:H2.
    rewrite (sign_hash_run _ _ _ _ _ _ _ _ Hh H1 H2). reflexivity.
  - split.
    + unfold len. rewrite be_digits_length. reflexivity.
    + rewrite int_from_bytes_be_digits. apply Z.mod_small. exact Hr.
Qed.

(** C10: with the phase-1 exchange done, a hash in [0, 2^252) is encoded
    and the phase-2 command is sent; a negative hash or one from [2^252] on
    makes the encoding raise an overflow error, and [sign_hash] stops there:
    the register-path command has been sent to the device, the sign command
    has not. *)
Theorem sign_hash_encoding_overflow (self : LedgerStarknetApp)
    (path : Bip32Path) (hash_val : Z) (w : World Dev) (d1 : Dev)
    (ack : bytes) :
  transport (register_path_command self path) (device w) = (d1, Ok ack) ->
  (0 <= hash_val < 2 ^ 252 ->
     int_to_bytes (Z.shiftl hash_val 4) 32
     = Ok (be_digits 32 (Z.shiftl hash_val 4))
     /\ sent (fst (sign_hash transport self path hash_val w))
        = sent w ++ [register_path_command self path;
                     sign_command self (be_digits 32 (Z.shiftl hash_val 4))])
  /\ (hash_val < 0 ->
      sign_hash transport self path hash_val w
      = (MkWorld d1 (sent w ++ [register_path_command self path]),
         Raise (OverflowError "can't convert negative int to unsigned")))
  /\ (2 ^ 252 <= hash_val ->
      sign_hash transport self path hash_val w
      = (MkWorld d1 (sent w ++ [register_path_command self path]),
         Raise (OverflowError "int too big to convert"))).
Proof.
  intros H1. split; [|split].
  - intros Hh. split.
    + apply int_to_bytes_in_range, shifted_hash_range, Hh.
    + destruct (transport
                  (sign_command self (be_digits 32 (Z.shiftl hash_val 4))) d1)
        as [d2 r] eqn:H2.
      rewrite (sign_hash_run _ _ _ _ _ _ _ _ Hh H1 H2). reflexivity.
  - intros Hneg. apply (sign_hash_until_encoding _ _ _ _ _ _ _ H1).
    apply int_to_bytes_negative. rewrite Z.shiftl_mul_pow2 by lia. lia.
  - intros Hbig. apply (sign_hash_until_encoding _ _ _ _ _ _ _ H1).
    apply int_to_bytes_too_big. rewrite Z.shiftl_mul_pow2 by lia.
    change (256 ^ Z.of_nat 32) with (2 ^ 252 * 2 ^ 4). lia.
Qed.

(** What [get_public_key] does with the outcome of its exchange, for both
    values of the flag. *)
Lemma get_public_key_run (self : LedgerStarknetApp) (path : Bip32Path)
    (confirmation : bool) (w : World Dev) (d : Dev) (r : result bytes) :
  transport (public_key_command self path) (device w) = (d, r) ->
  get_public_key transport PUBLIC_KEY_LENGTH self path confirmation w
  = (MkWorld d (sent w ++ [public_key_command self path]),
     response <- r ;;
     if len response =? PUBLIC_KEY_LENGTH
     then Ok (int_from_bytes (slice 1 33 response))
     else Raise (ValueError
                   (unexpected_length PUBLIC_KEY_LENGTH
                      (len (encoding_of (m_elems path)))))).
Proof.
  intros H. unfold get_public_key, mbind, lift.
  rewrite derivation_path_to_bytes_ok.
  assert (Hp1 : (if confirmation then 0 else 0) = 0)
    by (destruct confirmation; reflexivity).
  rewrite Hp1. fold (public_key_command self path).
  unfold public_key_command in H |- *.
  rewrite (apdu_exchange_run _ _ _ _ _ _ _ _ H).
  destruct r as [response|e]; [|reflexivity].
  cbn [bind]. destruct (len response =? PUBLIC_KEY_LENGTH); reflexivity.
Qed.


(** C4, as the code has it: the command [get_public_key] sends carries
    [p1 = 0] whether confirmation is asked for or not, so a call with
    [device_confirmation=True] is indistinguishable from one without; the
    response is checked the same way in both. *)
Theorem get_public_key_ignores_confirmation (self : LedgerStarknetApp)
    (path : Bip32Path) (w : World Dev) :
  get_public_key transport PUBLIC_KEY_LENGTH self path true w
  = get_public_key transport PUBLIC_KEY_LENGTH self path false w
  /\ sent (fst (get_public_key transport PUBLIC_KEY_LENGTH self path true w))
     = sent w ++ [public_key_command self path]
  /\ p1 (public_key_command self path) = 0.
Proof.
  destruct (transport (public_key_command self path) (device w))
    as [d r] eqn:H.
  rewrite !(get_public_key_run _ _ _ _ _ _ H). repeat split.
Qed.

(** C9, amended: when the derivation path string is invalid, constructing
    a [LedgerSigner] fails in the constructor itself: it never yields a
    signer and sends no command to the device.  The error is the very error
    of the parser once the Ledger client has been opened, and the error of
    the client when it cannot be opened, the constructor building the
    client before it parses the path. *)
Theorem invalid_path_fails_at_construction (s : string) (e : exn)
    (chain : ChainId) (w : World Dev) :
  _parse_derivation_path_str s = Raise e ->
  (forall signer, snd (LedgerSigner_init connect STARKNET_CLA s chain w)
                  <> Ok signer)
  /\ sent (fst (LedgerSigner_init connect STARKNET_CLA s chain w)) = sent w
  /\ (forall d, connect STARKNET_CLA (device w) = (d, Ok tt) ->
        LedgerSigner_init connect STARKNET_CLA s chain w
        = (MkWorld d (sent w), Raise e))
  /\ (forall d e', connect STARKNET_CLA (device w) = (d, Raise e') ->
        LedgerSigner_init connect STARKNET_CLA s chain w
        = (MkWorld d (sent w), Raise e')).
Proof.
  intros Hparse.
  unfold LedgerSigner_init, LedgerStarknetApp_init, LedgerClient_init,
    mbind, lift, ret.
  rewrite Hparse.
  destruct (connect STARKNET_CLA (device w)) as [d' [[]|e']] eqn:Hc;
    cbn [bind snd fst sent].
  - repeat split; try discriminate.
    intros d Hd. injection Hd as ->. reflexivity.
  - repeat split; try discriminate.
    intros d e0 Hd. injection Hd as -> ->. reflexivity.
Qed.

(** A valid path string yields a signer that holds the parsed path. *)
Lemma valid_path_constructs (s : string) (path : Bip32Path)
    (chain : ChainId) (w : World Dev) (d : Dev) :
  _parse_derivation_path_str s = Ok path ->
  connect STARKNET_CLA (device w) = (d, Ok tt) ->
  LedgerSigner_init connect STARKNET_CLA s chain w
  = (MkWorld d (sent w), Ok (MkSigner (MkApp (MkClient STARKNET_CLA)) path chain)).
Proof.
  intros Hparse Hc.
  unfold LedgerSigner_init, LedgerStarknetApp_init, LedgerClient_init,
    mbind, lift, ret.
  rewrite Hparse, Hc. reflexivity.
Qed.

End DeviceProperties.

(* ================================================================= *)
(** ** The operations on the scripted device *)

Example scenario_path_parses :
  _parse_derivation_path_str scenario_path_str = Ok scenario_path.
Proof. reflexivity. Qed.

Example scenario_path_encoding :
  _derivation_path_to_bytes scenario_path
  = Ok [x80; x00; x0a; x55;  xc7; x41; xe9; xc9;  xd7; xa5; x5d; xf5;
        x80; x00; x00; x00;  x80; x00; x00; x00;  x00; x00; x00; x00].
Proof. vm_compute. reflexivity. Qed.

(** Without its apostrophe the purpose is not hardened, and the path is
    refused. *)
Example unhardened_purpose_refused :
  _parse_derivation_path_str "m/2645/1195502025'/1470455285'/0'/0'/0"
  = Raise prefix_error.
Proof. reflexivity. Qed.

(** A malformed element stops the loop before the length test. *)
Example malformed_element_refused :
  _parse_derivation_path_str "m/2645'/x" = Raise (IntLiteralError "x").
Proof. reflexivity. Qed.

(** The scenario: [sign_hash] returns the two integers of the response. *)
Example scenario_sign_hash :
  snd (sign_hash script_transport scenario_app scenario_path 1
         (signing_device scenario_signature))
  = Ok [scenario_r; scenario_s].
Proof. vm_compute. reflexivity. Qed.

(** A test vector for the payload: the hash 1 is sent as 31 zero bytes
    followed by [0x10]. *)
Example payload_test_vector :
  int_to_bytes (Z.shiftl 1 4) 32 = Ok (repeat x00 31 ++ [x10]).
Proof. reflexivity. Qed.


Lemma sign_hash_payload_witness :
  exists payload,
    int_to_bytes (Z.shiftl 1 4) 32 = Ok payload
    /\ sent (fst (sign_hash script_transport scenario_app scenario_path 1
                    (signing_device scenario_signature)))
       = [register_path_command scenario_app scenario_path;
          sign_command scenario_app payload]
    /\ len payload = 32
    /\ int_from_bytes payload = Z.shiftl 1 4.
Proof.
  refine (sign_hash_payload Script script_transport scenario_app scenario_path
            1 (signing_device scenario_signature) [Ok scenario_signature] []
            _ _).
  - lia.
  - reflexivity.
Defined.

Lemma sign_hash_encoding_overflow_witness :
  sign_hash script_transport scenario_app scenario_path (2 ^ 252)
    (signing_device scenario_signature)
  = (MkWorld [Ok scenario_signature]
       [register_path_command scenario_app scenario_path],
     Raise (OverflowError "int too big to convert")).
Proof.
  refine (proj2 (proj2 (sign_hash_encoding_overflow Script script_transport
                          scenario_app scenario_path (2 ^ 252)
                          (signing_device scenario_signature)
                          [Ok scenario_signature] [] _)) _).
  - reflexivity.
  - lia.
Defined.


Lemma invalid_path_fails_at_construction_witness :
  LedgerSigner_init script_connect 90 "" tt (MkWorld [] [])
  = (MkWorld [] [], Raise empty_path_error).
Proof.
  refine (proj1 (proj2 (proj2 (invalid_path_fails_at_construction Script
                                 script_connect 90 unit "" empty_path_error
                                 tt (MkWorld [] []) _))) [] _).
  - reflexivity.
  - reflexivity.
Defined.

(** C9, what fails: with no device to open, constructing a signer on the
    empty path string raises the error of the client, not the empty-path
    error of the parser. *)
Lemma construction_without_device :
  _parse_derivation_path_str "" = Raise empty_path_error
  /\ LedgerSigner_init
       (fun (_ : Z) (d : Script) => (d, Raise (DeviceError 1))) 90 "" tt
       (MkWorld [] [])
     = (MkWorld [] [], Raise (DeviceError 1))
  /\ DeviceError 1 <> empty_path_error.
Proof.
  split; [reflexivity|]. split; [reflexivity|]. discriminate.
Qed.

(* ================================================================= *)
(** ** More on bytes: reading back what was written *)

Section BytesRoundTrip.

Lemma byte_of_int_of_byte (q : Z) (b : byte) :
  byte_of_int (q * 256 + int_of_byte b) = b.
Proof.
  unfold byte_of_int.
  pose proof (int_of_byte_range b) as Hb.
  replace ((q * 256 + int_of_byte b) mod 256) with (int_of_byte b).
  - unfold int_of_byte. rewrite N2Z.id, Byte.of_to_N. reflexivity.
  - rewrite Z.add_comm, Z.mod_add by lia. symmetry. apply Z.mod_small. exact Hb.
Qed.

Lemma int_from_bytes_range (bs : bytes) :
  0 <= int_from_bytes bs < 256 ^ Z.of_nat (List.length bs).
Proof.
  induction bs as [|b bs IH] using rev_ind.
  - cbn. lia.
  - rewrite int_from_bytes_snoc, length_app. cbn [List.length].
    replace (Z.of_nat (List.length bs + 1)) with (Z.succ (Z.of_nat (List.length bs)))
      by lia.
    rewrite Z.pow_succ_r by lia.
    pose proof (int_of_byte_range b). lia.
Qed.

(** Writing an integer read from [bs] over as many bytes gives [bs]. *)
Lemma be_digits_int_from_bytes (bs : bytes) :
  be_digits (List.length bs) (int_from_bytes bs) = bs.
Proof.
  induction bs as [|b bs IH] using rev_ind.
  - reflexivity.
  - rewrite int_from_bytes_snoc, length_app. cbn [List.length].
    rewrite Nat.add_1_r. cbn [be_digits].
    rewrite byte_of_int_of_byte.
    pose proof (int_of_byte_range b) as Hb.
    replace ((int_from_bytes bs * 256 + int_of_byte b) / 256)
      with (int_from_bytes bs).
    + rewrite IH. reflexivity.
    + rewrite Z.add_comm, Z.div_add by lia.
      rewrite Z.div_small by exact Hb. reflexivity.
Qed.

Lemma int_of_byte_inj (a b : byte) : int_of_byte a = int_of_byte b -> a = b.
Proof.
  intros H. unfold int_of_byte in H. apply N2Z.inj in H.
  pose proof (Byte.of_to_N a) as Ha. rewrite H, Byte.of_to_N in Ha.
  congruence.
Qed.

Lemma be_digits_inj (n : nat) (x y : Z) :
  0 <= x < 256 ^ Z.of_nat n ->
  0 <= y < 256 ^ Z.of_nat n ->
  be_digits n x = be_digits n y -> x = y.
Proof.
  intros Hx Hy H.
  rewrite <- (Z.mod_small x (256 ^ Z.of_nat n)) by exact Hx.
  rewrite <- (Z.mod_small y (256 ^ Z.of_nat n)) by exact Hy.
  rewrite <- !int_from_bytes_be_digits, H. reflexivity.
Qed.

End BytesRoundTrip.

(* ================================================================= *)
(** ** Further properties of the two path functions *)

(** X1: a path that [_parse_derivation_path_str] returns has the six
    elements the loop produced, starts with the hardened purpose, is
    absolute, comes from a non-empty string, and encodes to 24 bytes that
    begin with [80 00 0a 55]. *)
Theorem parsed_path_invariant (s : string) (path : Bip32Path) :
  _parse_derivation_path_str s = Ok path ->
  s <> ""
  /\ path_elements s = Ok (m_elems path)
  /\ len (m_elems path) = 6
  /\ option_map m_idx (nth_error (m_elems path) 0) = Some EIP_2645_PURPOSE
  /\ m_is_absolute path = true
  /\ exists encoded,
       _derivation_path_to_bytes path = Ok encoded
       /\ len encoded = 24
       /\ firstn 4 encoded = [x80; x00; x0a; x55].
Proof.
  intros H.
  assert (Hne : s <> "") by (intros ->; discriminate H).
  destruct (path_elements s) as [elems|e] eqn:Hloop.
  2:{ rewrite (parse_loop_raises _ _ Hne Hloop) in H. discriminate. }
  rewrite (parse_after_loop _ _ Hloop) in H.
  destruct (Z.eqb_spec (len elems) EIP_2645_PATH_LENGTH) as [Hlen|];
    [|discriminate].
  cbn [negb] in H. destruct elems as [|first rest]; [discriminate|].
  unfold eq_int in H.
  destruct (Z.eqb_spec (m_idx first) EIP_2645_PURPOSE) as [Hp|];
    [|discriminate].
  injection H as <-. cbn [m_elems Bip32Path_init m_is_absolute].
  repeat split; try assumption.
  - cbn. rewrite Hp. reflexivity.
  - exists (encoding_of (first :: rest)). split; [|split].
    + apply derivation_path_to_bytes_ok.
    + rewrite encoding_of_len, Hlen. reflexivity.
    + unfold encoding_of. cbn [map List.concat]. rewrite Hp.
      rewrite firstn_app, be_digits_length. reflexivity.
Qed.

Lemma parsed_path_invariant_witness :
  scenario_path_str <> ""
  /\ path_elements scenario_path_str = Ok (m_elems scenario_path)
  /\ len (m_elems scenario_path) = 6
  /\ option_map m_idx (nth_error (m_elems scenario_path) 0)
     = Some EIP_2645_PURPOSE
  /\ m_is_absolute scenario_path = true
  /\ exists encoded,
       _derivation_path_to_bytes scenario_path = Ok encoded
       /\ len encoded = 24
       /\ firstn 4 encoded = [x80; x00; x0a; x55].
Proof.
  apply parsed_path_invariant. reflexivity.
Defined.

(** X2: [_derivation_path_to_bytes] never raises, whatever the length of
    the path: every element passes [to_bytes(4)] because a [Bip32KeyIndex]
    holds a 32-bit index, and the result has 4 bytes per element. *)
Theorem path_encoding_never_raises (path : Bip32Path) :
  exists encoded,
    _derivation_path_to_bytes path = Ok encoded
    /\ len encoded = 4 * len (m_elems path).
Proof.
  exists (encoding_of (m_elems path)). split.
  - apply derivation_path_to_bytes_ok.
  - apply encoding_of_len.
Qed.

Lemma app_inj_same_length {A} (a b c d : list A) :
  List.length a = List.length b -> a ++ c = b ++ d -> a = b /\ c = d.
Proof.
  revert b. induction a as [|x a IH]; intros [|y b] Hlen H;
    try discriminate Hlen.
  - split; [reflexivity|exact H].
  - cbn in H. injection H as -> H. injection Hlen as Hlen.
    destruct (IH b Hlen H) as [-> ->]. split; reflexivity.
Qed.

Lemma encoding_of_inj (p q : list Bip32KeyIndex) :
  encoding_of p = encoding_of q -> map m_idx p = map m_idx q.
Proof.
  revert q. induction p as [|a p IH]; intros [|b q] H.
  - reflexivity.
  - apply (f_equal (@List.length byte)) in H.
    rewrite !encoding_of_length in H. cbn in H. lia.
  - apply (f_equal (@List.length byte)) in H.
    rewrite !encoding_of_length in H. cbn in H. lia.
  - unfold encoding_of in H. cbn [map List.concat] in H.
    apply app_inj_same_length in H; [|rewrite !be_digits_length; reflexivity].
    destruct H as [Hhead Htail].
    cbn [map]. f_equal.
    + apply (be_digits_inj 4); try exact Hhead;
        change (256 ^ Z.of_nat 4) with (2 ^ 32); apply key_index_range.
    + apply IH. exact Htail.
Qed.

(** X3: the encoding is injective: two paths that
    [_derivation_path_to_bytes] maps to the same bytes have the same
    indices, in the same order. *)
Theorem path_encoding_injective (p q : Bip32Path) :
  _derivation_path_to_bytes p = _derivation_path_to_bytes q ->
  map m_idx (m_elems p) = map m_idx (m_elems q).
Proof.
  rewrite !derivation_path_to_bytes_ok. intros H. injection H as H.
  apply encoding_of_inj. exact H.
Qed.

Lemma path_encoding_injective_witness :
  map m_idx (m_elems scenario_path)
  = map m_idx (m_elems (MkPath (m_elems scenario_path) false)).
Proof.
  apply path_encoding_injective. reflexivity.
Defined.

Section ParseOutcomes.

Lemma Bip32KeyIndex_init_raises (idx : Z) (e : exn) :
  Bip32KeyIndex_init idx = Raise e ->
  e = KeyIndexError idx /\ (idx < 0 \/ 2 ^ 32 <= idx).
Proof.
  unfold Bip32KeyIndex_init.
  generalize (@eq_refl bool (invalid_index idx)).
  generalize (invalid_index idx) at 2 3.
  intros [|] Hinv H; [|discriminate].
  injection H as <-. split; [reflexivity|].
  unfold invalid_index, KEY_INDEX_MAX_VAL in Hinv.
  apply orb_true_iff in Hinv. destruct Hinv as [H|H].
  - left. apply Z.ltb_lt in H. exact H.
  - right. apply Z.ltb_lt in H. lia.
Qed.

Lemma Bip32KeyIndex_init_out_of_range (idx : Z) :
  idx < 0 \/ 2 ^ 32 <= idx ->
  Bip32KeyIndex_init idx = Raise (KeyIndexError idx).
Proof.
  intros Hr. destruct (Bip32KeyIndex_init idx) as [index|e] eqn:E.
  - unfold Bip32KeyIndex_init in E. revert E.
    generalize (@eq_refl bool (invalid_index idx)).
    generalize (invalid_index idx) at 2 3.
    intros [|] Hinv E; [discriminate|]. clear E.
    unfold invalid_index, KEY_INDEX_MAX_VAL in Hinv.
    apply orb_false_iff in Hinv. destruct Hinv as [H1 H2].
    apply Z.ltb_ge in H1. apply Z.ltb_ge in H2. lia.
  - destruct (Bip32KeyIndex_init_raises _ _ E) as [-> _]. reflexivity.
Qed.

(** The two ways one turn of the loop can raise. *)
Lemma parse_part_raises (part : string) (e : exn) :
  parse_part part = Raise e ->
  (exists literal, e = IntLiteralError literal)
  \/ (exists idx, e = KeyIndexError idx /\ (idx < 0 \/ 2 ^ 32 <= idx)).
Proof.
  unfold parse_part, int.
  destruct (endswith part "'").
  - destruct (int_literal (drop_last part)) as [n|]; cbn [bind].
    + intros H. right. eexists. exact (Bip32KeyIndex_init_raises _ _ H).
    + intros H. injection H as <-. left. eauto.
  - destruct (int_literal part) as [n|]; cbn [bind].
    + intros H. right. eexists. exact (Bip32KeyIndex_init_raises _ _ H).
    + intros H. injection H as <-. left. eauto.
Qed.

Lemma parse_parts_raises (parts : list string) (acc : list Bip32KeyIndex)
    (e : exn) :
  parse_parts parts acc = Raise e ->
  (exists literal, e = IntLiteralError literal)
  \/ (exists idx, e = KeyIndexError idx /\ (idx < 0 \/ 2 ^ 32 <= idx)).
Proof.
  revert acc. induction parts as [|part rest IH]; intros acc; cbn [parse_parts].
  - discriminate.
  - destruct (parse_part part) as [element|e'] eqn:E; cbn [bind].
    + apply IH.
    + intros H. injection H as <-. exact (parse_part_raises _ _ E).
Qed.

(** The loop stops at the first piece that does not parse. *)
Lemma parse_parts_first_failure (good : list string) (bad : string)
    (rest : list string) (acc : list Bip32KeyIndex) (e : exn) :
  Forall (fun part => exists index, parse_part part = Ok index) good ->
  parse_part bad = Raise e ->
  parse_parts (good ++ bad :: rest) acc = Raise e.
Proof.
  intros Hgood Hbad. revert acc.
  induction Hgood as [|part good [index Hi] _ IH]; intros acc.
  - change (parse_parts (bad :: rest) acc = Raise e).
    cbn [parse_parts]. rewrite Hbad. reflexivity.
  - change (parse_parts (part :: (good ++ bad :: rest)) acc = Raise e).
    cbn [parse_parts]. rewrite Hi. cbn [bind]. apply IH.
Qed.

End ParseOutcomes.

(** X4: every way [_parse_derivation_path_str] can end.  It returns a path
    of six elements, or raises one of its three errors, or lets through the
    error of [int] on a malformed piece or of [Bip32KeyIndex] on an index
    outside [0, 2^32).  In particular the subscript [path_elements[0]]
    never raises: it is only reached with six elements. *)
Theorem parse_outcomes (s : string) :
  match _parse_derivation_path_str s with
  | Ok path => len (m_elems path) = 6
  | Raise e =>
      e = empty_path_error
      \/ e = length_error
      \/ e = prefix_error
      \/ (exists literal, e = IntLiteralError literal)
      \/ (exists idx, e = KeyIndexError idx /\ (idx < 0 \/ 2 ^ 32 <= idx))
  end.
Proof.
  destruct s as [|c s']; [left; reflexivity|].
  destruct (path_elements (String c s')) as [elems|e] eqn:Hloop.
  - rewrite (parse_after_loop _ _ Hloop).
    destruct (Z.eqb_spec (len elems) EIP_2645_PATH_LENGTH) as [Hlen|Hlen];
      cbn [negb]; [|right; left; reflexivity].
    destruct elems as [|first rest]; [discriminate Hlen|].
    destruct (negb (eq_int first EIP_2645_PURPOSE));
      [right; right; left; reflexivity|exact Hlen].
  - rewrite (parse_loop_raises _ e) by (discriminate || assumption).
    right. right. right. exact (parse_parts_raises _ _ _ Hloop).
Qed.

(** X5: the root marker is stripped as a set of characters: in front of a
    non-empty string one more [m] or one more [/] changes nothing, so the
    marker may be missing, doubled or mixed.  (In front of the empty string
    it does: the result is then no longer the empty-path error.) *)
Theorem root_marker_characters_ignored (s : string) :
  s <> "" ->
  _parse_derivation_path_str (String "m" s) = _parse_derivation_path_str s
  /\ _parse_derivation_path_str (String "/" s) = _parse_derivation_path_str s.
Proof.
  intros Hne. destruct s as [|c s']; [congruence|].
  split; reflexivity.
Qed.

Lemma root_marker_characters_ignored_witness :
  _parse_derivation_path_str "m/2645'/1195502025'/1470455285'/0'/0'/0"
  = _parse_derivation_path_str "/2645'/1195502025'/1470455285'/0'/0'/0"
  /\ _parse_derivation_path_str "//2645'/1195502025'/1470455285'/0'/0'/0"
     = _parse_derivation_path_str "/2645'/1195502025'/1470455285'/0'/0'/0".
Proof.
  apply root_marker_characters_ignored. discriminate.
Defined.

(** X6: a piece that fails to parse is reported before the length and
    purpose tests: when the pieces before it parse, the function raises the
    error of that piece, whatever follows it and however many pieces there
    are. *)
Theorem first_bad_piece_is_reported (s : string) (good : list string)
    (bad : string) (rest : list string) (e : exn) :
  s <> "" ->
  split "/" (lstrip "m/" s) = good ++ bad :: rest ->
  Forall (fun part => exists index, parse_part part = Ok index) good ->
  parse_part bad = Raise e ->
  _parse_derivation_path_str s = Raise e.
Proof.
  intros Hne Hsplit Hgood Hbad. apply parse_loop_raises; [exact Hne|].
  unfold path_elements. rewrite Hsplit.
  apply parse_parts_first_failure; assumption.
Qed.

Lemma first_bad_piece_is_reported_witness :
  _parse_derivation_path_str "m/1234'/x/y" = Raise (IntLiteralError "x").
Proof.
  apply (first_bad_piece_is_reported "m/1234'/x/y" ["1234'"] "x" ["y"]).
  - discriminate.
  - reflexivity.
  - constructor; [|constructor]. eexists. reflexivity.
  - reflexivity.
Defined.

Section Hardening.

Import PathSyntax.

Lemma endswith_append_quote (s : string) : endswith (s ++ "'")%string "'" = true.
Proof.
  induction s as [|c r IH]; [reflexivity|].
  cbn [String.append endswith]. destruct r as [|d r']; [reflexivity|].
  exact IH.
Qed.

Lemma drop_last_append_quote (s : string) : drop_last (s ++ "'")%string = s.
Proof.
  induction s as [|c r IH]; [reflexivity|].
  cbn [String.append drop_last]. destruct r as [|d r']; [reflexivity|].
  cbn [String.append] in IH |- *. rewrite IH. reflexivity.
Qed.

Lemma endswith_digits (s : string) :
  all_digits s = true -> endswith s "'" = false.
Proof.
  induction s as [|c r IH]; intros H; [reflexivity|].
  cbn [all_digits] in H. apply andb_true_iff in H. destruct H as [Hc Hr].
  cbn [endswith]. destruct r as [|d r']; [|exact (IH Hr)].
  destruct (Ascii.eqb_spec c "'") as [->|]; [discriminate Hc|reflexivity].
Qed.

Lemma harden_below (n : Z) :
  0 <= n < 2 ^ 31 -> HardenIndex n = n + 2 ^ 31.
Proof.
  intros [Hlo Hhi]. unfold HardenIndex, KEY_INDEX_HARDENED_BIT_NUM.
  change (Z.shiftl 1 31) with (2 ^ 31).
  assert (Hland : Z.land n (2 ^ 31) = 0).
  { apply Z.bits_inj'. intros i Hi.
    rewrite Z.land_spec, Z.bits_0, Z.pow2_bits_eqb by lia.
    destruct (Z.eqb_spec 31 i) as [<-|]; [|apply andb_false_r].
    rewrite andb_true_r.
    destruct (Z.eq_dec n 0) as [->|Hn]; [apply Z.bits_0|].
    apply Z.bits_above_log2; [lia|]. apply Z.log2_lt_pow2; lia. }
  rewrite <- (Z.lxor_lor _ _ Hland). symmetry.
  apply Z.add_nocarry_lxor. exact Hland.
Qed.

Lemma harden_above (n : Z) :
  2 ^ 31 <= n < 2 ^ 32 -> HardenIndex n = n.
Proof.
  intros [Hlo Hhi]. unfold HardenIndex, KEY_INDEX_HARDENED_BIT_NUM.
  change (Z.shiftl 1 31) with (2 ^ 31).
  apply Z.bits_inj'. intros i Hi.
  rewrite Z.lor_spec, Z.pow2_bits_eqb by lia.
  destruct (Z.eqb_spec 31 i) as [<-|]; [|apply orb_false_r].
  rewrite orb_true_r. symmetry. apply Z.testbit_true; [lia|].
  assert (Hq : n / 2 ^ 31 = 1).
  { symmetry. apply (Z.div_unique n (2 ^ 31) 1 (n - 2 ^ 31)); lia. }
  rewrite Hq. reflexivity.
Qed.

Lemma harden_too_big (n : Z) :
  2 ^ 32 <= n -> 2 ^ 32 <= HardenIndex n.
Proof.
  intros Hn. unfold HardenIndex, KEY_INDEX_HARDENED_BIT_NUM.
  change (Z.shiftl 1 31) with (2 ^ 31).
  assert (Hnn : 0 <= Z.lor n (2 ^ 31)) by (apply Z.lor_nonneg; lia).
  assert (Hlog : 32 <= Z.log2 n) by (apply Z.log2_le_pow2; lia).
  assert (Hpos : 0 < Z.lor n (2 ^ 31)).
  { destruct (Z.eq_dec (Z.lor n (2 ^ 31)) 0) as [E|E]; [|lia].
    apply Z.lor_eq_0_iff in E. lia. }
  apply Z.log2_le_pow2; [exact Hpos|].
  rewrite Z.log2_lor by lia. lia.
Qed.

End Hardening.

(** X7: what one element denotes.  A run of at most 4300 digits of value
    [n] is the index [n], and is refused by [Bip32KeyIndex] from [2^32] on.
    With a closing apostrophe it is [n + 2^31] when [n < 2^31], it is [n]
    itself when [n] already has bit 31 set, and it is refused from [2^32]
    on. *)
Theorem element_denotation (body : string) (n : Z) :
  is_empty body = false ->
  PathSyntax.all_digits body = true ->
  Z.of_nat (String.length body) <= 4300 ->
  PathSyntax.decimal 0 body = n ->
  (n < 2 ^ 32 -> exists index, parse_part body = Ok index /\ m_idx index = n)
  /\ (2 ^ 32 <= n -> parse_part body = Raise (KeyIndexError n))
  /\ (n < 2 ^ 31 ->
      exists index,
        parse_part (body ++ "'")%string = Ok index
        /\ m_idx index = n + 2 ^ 31)
  /\ (2 ^ 31 <= n < 2 ^ 32 ->
      exists index,
        parse_part (body ++ "'")%string = Ok index /\ m_idx index = n)
  /\ (2 ^ 32 <= n ->
      parse_part (body ++ "'")%string
      = Raise (KeyIndexError (HardenIndex n))).
Proof.
  intros Hne Hd Hcount Hn.
  pose proof (decimal_nonneg _ 0 Hd (Z.le_refl 0)) as Hnn. rewrite Hn in Hnn.
  assert (Hplain : parse_part body = Bip32KeyIndex_init n).
  { unfold parse_part. rewrite (endswith_digits _ Hd).
    rewrite (int_of_digits _ Hne Hd Hcount), Hn. reflexivity. }
  assert (Hhard : parse_part (body ++ "'")%string
                  = Bip32KeyIndex_init (HardenIndex n)).
  { unfold parse_part.
    rewrite endswith_append_quote, drop_last_append_quote.
    rewrite (int_of_digits _ Hne Hd Hcount), Hn. reflexivity. }
  rewrite Hplain, Hhard. repeat split.
  - intros H. apply Bip32KeyIndex_init_in_range. lia.
  - intros H. apply Bip32KeyIndex_init_out_of_range. right. exact H.
  - intros H. rewrite harden_below by lia.
    apply Bip32KeyIndex_init_in_range. lia.
  - intros H. rewrite harden_above by lia.
    apply Bip32KeyIndex_init_in_range. lia.
  - intros H. apply Bip32KeyIndex_init_out_of_range. right.
    apply harden_too_big. exact H.
Qed.

Lemma element_denotation_witness :
  exists index, parse_part "2645'" = Ok index /\ m_idx index = 2645 + 2 ^ 31.
Proof.
  refine (proj1 (proj2 (proj2 (element_denotation "2645" 2645 _ _ _ _))) _).
  - reflexivity.
  - reflexivity.
  - cbn. lia.
  - reflexivity.
  - lia.
Defined.

(* ================================================================= *)
(** ** Further properties of the device operations *)

Section DeviceOperations.

Variable Dev : Type.
Variable transport : Apdu -> Dev -> Dev * result bytes.
Variable PUBLIC_KEY_LENGTH : Z.

(** What [version] does with the outcome of its exchange. *)
Lemma version_run (self : LedgerStarknetApp) (w : World Dev) (d : Dev)
    (r : result bytes) :
  transport (MkApdu (client_cla (client self)) 0 0 0 []) (device w) = (d, r) ->
  version transport self w
  = (MkWorld d (sent w ++ [MkApdu (client_cla (client self)) 0 0 0 []]),
     response <- r ;;
     match response with
     | [major; minor; patch] =>
         Ok (str (int_of_byte major) ++ "." ++ str (int_of_byte minor)
               ++ "." ++ str (int_of_byte patch))%string
     | _ => Raise (ValueError
                     (unexpected_length VERSION_LENGTH (len response)))
     end).
Proof.
  intros H. unfold version, mbind.
  rewrite (apdu_exchange_run _ _ _ _ _ _ _ _ _ _ H).
  destruct r as [response|e]; [|reflexivity]. cbn [bind].
  destruct response as [|a [|b [|c [|x rest]]]]; try reflexivity.
  unfold len, VERSION_LENGTH. cbn [List.length].
  destruct (Z.eqb_spec (Z.of_nat (S (S (S (S (List.length rest)))))) 3);
    [lia|reflexivity].
Qed.

(** X8: [version] sends one command, instruction 0 with no payload.  A
    response of three bytes gives the three numbers in decimal, separated
    by dots; a response of any other length raises the
    unexpected-response-length error with that length; the unpacking of the
    three bytes itself never raises. *)
Theorem version_checks_length (self : LedgerStarknetApp) (w : World Dev)
    (d : Dev) (response : bytes) :
  transport (MkApdu (client_cla (client self)) 0 0 0 []) (device w)
  = (d, Ok response) ->
  fst (version transport self w)
  = MkWorld d (sent w ++ [MkApdu (client_cla (client self)) 0 0 0 []])
  /\ (len response = 3 ->
      exists major minor patch,
        response = [major; minor; patch]
        /\ snd (version transport self w)
           = Ok (str (int_of_byte major) ++ "." ++ str (int_of_byte minor)
                   ++ "." ++ str (int_of_byte patch))%string)
  /\ (len response <> 3 ->
      snd (version transport self w)
      = Raise (ValueError (unexpected_length 3 (len response)))).
Proof.
  intros H. rewrite (version_run _ _ _ _ H). cbn [fst snd bind].
  split; [reflexivity|]. split.
  - intros Hlen. unfold len in Hlen.
    destruct response as [|a [|b [|c [|x rest]]]]; cbn [List.length] in Hlen;
      try lia.
    exists a, b, c. split; reflexivity.
  - intros Hlen.
    destruct response as [|a [|b [|c [|x rest]]]]; try reflexivity.
    exfalso. apply Hlen. reflexivity.
Qed.

Lemma sign_hash_until_register (self : LedgerStarknetApp)
    (path : Bip32Path) (hash_val : Z) (w : World Dev) (d1 : Dev) (e : exn) :
  transport (register_path_command self path) (device w) = (d1, Raise e) ->
  sign_hash transport self path hash_val w
  = (MkWorld d1 (sent w ++ [register_path_command self path]), Raise e).
Proof.
  intros H1. unfold sign_hash, mbind, lift.
  rewrite derivation_path_to_bytes_ok.
  rewrite (apdu_exchange_run _ _ _ _ _ _ _ _ _ _ H1). reflexivity.
Qed.

(** X9: when the device refuses the register-path command, [sign_hash]
    stops at once with the error of the transport: the hash is not even
    encoded (so no overflow error, whatever the hash) and no sign command
    is sent. *)
Theorem sign_hash_register_failure (self : LedgerStarknetApp)
    (path : Bip32Path) (hash_val : Z) (w : World Dev) (d1 : Dev) (e : exn) :
  transport (register_path_command self path) (device w) = (d1, Raise e) ->
  sign_hash transport self path hash_val w
  = (MkWorld d1 (sent w ++ [register_path_command self path]), Raise e).
Proof.
  exact (sign_hash_until_register self path hash_val w d1 e).
Qed.

(** When the device refuses the sign command, [sign_hash] raises the
    error of the transport as it is; both commands have been sent, once
    each, and nothing is sent again. *)
Lemma sign_hash_sign_failure (self : LedgerStarknetApp)
    (path : Bip32Path) (hash_val : Z) (w : World Dev) (d1 d2 : Dev)
    (ack : bytes) (e : exn) :
  0 <= hash_val < 2 ^ 252 ->
  transport (register_path_command self path) (device w) = (d1, Ok ack) ->
  transport (sign_command self (be_digits 32 (Z.shiftl hash_val 4))) d1
  = (d2, Raise e) ->
  sign_hash transport self path hash_val w
  = (MkWorld d2 (sent w ++ [register_path_command self path;
                            sign_command self
                              (be_digits 32 (Z.shiftl hash_val 4))]),
     Raise e).
Proof.
  intros Hh H1 H2. rewrite (sign_hash_run _ _ _ _ _ _ _ _ _ _ Hh H1 H2).
  reflexivity.
Qed.

(** X11: the commands of one [sign_hash], in every case: the register-path
    command first, then nothing more or the sign command carrying the
    encoded hash.  The sign command is never sent first and never
    twice. *)
Theorem sign_hash_command_order (self : LedgerStarknetApp)
    (path : Bip32Path) (hash_val : Z) (w : World Dev) :
  sent (fst (sign_hash transport self path hash_val w))
  = sent w ++ [register_path_command self path]
  \/ (exists payload,
        int_to_bytes (Z.shiftl hash_val 4) 32 = Ok payload
        /\ sent (fst (sign_hash transport self path hash_val w))
           = sent w ++ [register_path_command self path;
                        sign_command self payload]).
Proof.
  destruct (transport (register_path_command self path) (device w))
    as [d1 [ack|e]] eqn:H1.
  2:{ left. rewrite (sign_hash_until_register _ _ _ _ _ _ H1). reflexivity. }
  destruct (int_to_bytes (Z.shiftl hash_val 4) 32) as [payload|e] eqn:He.
  2:{ left. rewrite (sign_hash_until_encoding _ _ _ _ _ _ _ _ _ H1 He).
      reflexivity. }
  right. exists payload. split; [reflexivity|].
  assert (Hh : 0 <= hash_val < 2 ^ 252).
  { unfold int_to_bytes in He.
    destruct (Z.ltb_spec (Z.shiftl hash_val 4) 0) as [|Hlo]; [discriminate|].
    destruct (Z.leb_spec (256 ^ Z.of_nat 32) (Z.shiftl hash_val 4)) as [|Hhi];
      [discriminate|].
    rewrite Z.shiftl_mul_pow2 in Hlo, Hhi by lia.
    change (256 ^ Z.of_nat 32) with (2 ^ 252 * 2 ^ 4) in Hhi. lia. }
  rewrite (int_to_bytes_in_range _ _ (shifted_hash_range _ Hh)) in He.
  injection He as <-.
  destruct (transport (sign_command self (be_digits 32 (Z.shiftl hash_val 4)))
              d1) as [d2 r] eqn:H2.
  rewrite (sign_hash_run _ _ _ _ _ _ _ _ _ _ Hh H1 H2). reflexivity.
Qed.

End DeviceOperations.

Section Responses.

Variable Dev : Type.
Variable transport : Apdu -> Dev -> Dev * result bytes.
Variable PUBLIC_KEY_LENGTH : Z.

Lemma slice_tail_32 (tag : byte) (rest : bytes) :
  List.length rest = 64%nat ->
  slice 1 33 (tag :: rest) = firstn 32 rest
  /\ slice 33 65 (tag :: rest) = skipn 32 rest
  /\ List.length (firstn 32 rest) = 32%nat
  /\ List.length (skipn 32 rest) = 32%nat.
Proof.
  intros Hlen. unfold slice.
  change (33 - 1)%nat with 32%nat. change (65 - 33)%nat with 32%nat.
  change (skipn 1 (tag :: rest)) with rest.
  change (skipn 33 (tag :: rest)) with (skipn 32 rest).
  assert (Hs : List.length (skipn 32 rest) = 32%nat)
    by (rewrite length_skipn; lia).
  repeat split.
  - apply firstn_all2. lia.
  - rewrite length_firstn. lia.
  - exact Hs.
Qed.

(** X12: a signature that [sign_hash] returns is the response and nothing
    else: the result is a list of exactly two integers, both in
    [0, 2^256), and the response is the tag byte [0x40] followed by the 32
    bytes of [r] and the 32 bytes of [s], big endian. *)
Theorem sign_hash_result_is_response (self : LedgerStarknetApp)
    (path : Bip32Path) (hash_val : Z) (w : World Dev) (d1 d2 : Dev)
    (ack response : bytes) (signature : list Z) :
  0 <= hash_val < 2 ^ 252 ->
  transport (register_path_command self path) (device w) = (d1, Ok ack) ->
  transport (sign_command self (be_digits 32 (Z.shiftl hash_val 4))) d1
  = (d2, Ok response) ->
  snd (sign_hash transport self path hash_val w) = Ok signature ->
  exists r s,
    signature = [r; s]
    /\ 0 <= r < 2 ^ 256
    /\ 0 <= s < 2 ^ 256
    /\ response = x40 :: be_digits 32 r ++ be_digits 32 s.
Proof.
  intros Hh H1 H2. rewrite (sign_hash_run _ _ _ _ _ _ _ _ _ _ Hh H1 H2).
  cbn [snd bind]. unfold well_framed_signature.
  destruct (Z.eqb_spec (len response) (SIGNATURE_LENGTH + 1)) as [Hlen|];
    [|discriminate].
  destruct response as [|tag rest]; [discriminate|].
  destruct (Z.eqb_spec (int_of_byte tag) SIGNATURE_LENGTH) as [Htag|];
    [|discriminate].
  cbn [andb]. intros H. injection H as <-.
  assert (Hrest : List.length rest = 64%nat)
    by (unfold len, SIGNATURE_LENGTH in Hlen; cbn [List.length] in Hlen; lia).
  destruct (slice_tail_32 tag rest Hrest) as (-> & -> & Hr & Hs).
  exists (int_from_bytes (firstn 32 rest)), (int_from_bytes (skipn 32 rest)).
  split; [reflexivity|].
  pose proof (int_from_bytes_range (firstn 32 rest)) as Br.
  pose proof (int_from_bytes_range (skipn 32 rest)) as Bs.
  rewrite Hr in Br. rewrite Hs in Bs.
  change (256 ^ Z.of_nat 32) with (2 ^ 256) in Br, Bs.
  split; [exact Br|]. split; [exact Bs|].
  assert (Ht : tag = x40) by (apply int_of_byte_inj; exact Htag).
  pose proof (be_digits_int_from_bytes (firstn 32 rest)) as Er.
  pose proof (be_digits_int_from_bytes (skipn 32 rest)) as Es.
  rewrite Hr in Er. rewrite Hs in Es.
  rewrite Ht, Er, Es, firstn_skipn. reflexivity.
Qed.

(** X13: the public key is read from bytes 1 to 32 of the response and
    from nothing else.  For a response of the expected length made of a
    first byte, 32 bytes and a remainder, [get_public_key] returns the
    integer of the 32 bytes, below [2^256], whatever the first byte and the
    remainder are: the first byte is not examined. *)
Theorem get_public_key_reads_key_bytes (self : LedgerStarknetApp)
    (path : Bip32Path) (confirmation : bool) (w : World Dev) (d : Dev)
    (tag : byte) (key_bytes remainder : bytes) :
  transport (public_key_command self path) (device w)
  = (d, Ok (tag :: key_bytes ++ remainder)) ->
  List.length key_bytes = 32%nat ->
  len (tag :: key_bytes ++ remainder) = PUBLIC_KEY_LENGTH ->
  snd (get_public_key transport PUBLIC_KEY_LENGTH self path confirmation w)
  = Ok (int_from_bytes key_bytes)
  /\ 0 <= int_from_bytes key_bytes < 2 ^ 256
  /\ be_digits 32 (int_from_bytes key_bytes) = key_bytes.
Proof.
  intros H Hkey Hlen.
  rewrite (get_public_key_run _ _ _ _ _ _ _ _ _ H). cbn [snd bind].
  rewrite Hlen, Z.eqb_refl.
  assert (Hslice : slice 1 33 (tag :: key_bytes ++ remainder) = key_bytes).
  { unfold slice. change (33 - 1)%nat with 32%nat.
    change (skipn 1 (tag :: key_bytes ++ remainder))
      with (key_bytes ++ remainder).
    rewrite firstn_app, Hkey, Nat.sub_diag, firstn_O, app_nil_r.
    apply firstn_all2. lia. }
  rewrite Hslice. split; [reflexivity|].
  pose proof (int_from_bytes_range key_bytes) as B. rewrite Hkey in B.
  change (256 ^ Z.of_nat 32) with (2 ^ 256) in B.
  split; [exact B|].
  pose proof (be_digits_int_from_bytes key_bytes) as E.
  rewrite Hkey in E. exact E.
Qed.

Lemma parse_ok_six_elements (s : string) (path : Bip32Path) :
  _parse_derivation_path_str s = Ok path -> len (m_elems path) = 6.
Proof.
  intros H.
  assert (Hne : s <> "") by (intros ->; discriminate H).
  destruct (path_elements s) as [elems|e] eqn:Hloop.
  2:{ rewrite (parse_loop_raises _ _ Hne Hloop) in H. discriminate. }
  rewrite (parse_after_loop _ _ Hloop) in H.
  destruct (Z.eqb_spec (len elems) EIP_2645_PATH_LENGTH) as [Hlen|];
    [|discriminate].
  cbn [negb] in H. destruct elems as [|first rest]; [discriminate|].
  destruct (negb (eq_int first EIP_2645_PURPOSE)); [discriminate|].
  injection H as <-. exact Hlen.
Qed.

(** X14: the error of [get_public_key] reports the length of what was
    sent, not of what was received.  For a path that the parser returned,
    a response of unexpected length raises the error whose text gives 24
    as the actual length, whatever the length of the response. *)
Theorem get_public_key_error_reports_payload_length
    (self : LedgerStarknetApp) (s : string) (path : Bip32Path)
    (confirmation : bool) (w : World Dev) (d : Dev) (response : bytes) :
  _parse_derivation_path_str s = Ok path ->
  transport (public_key_command self path) (device w) = (d, Ok response) ->
  len response <> PUBLIC_KEY_LENGTH ->
  snd (get_public_key transport PUBLIC_KEY_LENGTH self path confirmation w)
  = Raise (ValueError (unexpected_length PUBLIC_KEY_LENGTH 24)).
Proof.
  intros Hparse H Hlen.
  rewrite (get_public_key_run _ _ _ _ _ _ _ _ _ H). cbn [snd bind].
  destruct (Z.eqb_spec (len response) PUBLIC_KEY_LENGTH); [contradiction|].
  rewrite encoding_of_len, (parse_ok_six_elements _ _ Hparse). reflexivity.
Qed.

End Responses.

(** X15: the acknowledgement of the register-path command is never
    examined.  Two runs of [sign_hash] on the same hash, against devices
    that acknowledge the path with different bytes and then give the same
    outcome to the sign command, end with the same result. *)
Theorem sign_hash_ignores_acknowledgement (Dev1 Dev2 : Type)
    (transport1 : Apdu -> Dev1 -> Dev1 * result bytes)
    (transport2 : Apdu -> Dev2 -> Dev2 * result bytes)
    (self : LedgerStarknetApp) (path : Bip32Path) (hash_val : Z)
    (w1 : World Dev1) (w2 : World Dev2)
    (d1 e1 : Dev1) (d2 e2 : Dev2) (ack1 ack2 : bytes) (r : result bytes) :
  0 <= hash_val < 2 ^ 252 ->
  transport1 (register_path_command self path) (device w1) = (d1, Ok ack1) ->
  transport2 (register_path_command self path) (device w2) = (d2, Ok ack2) ->
  transport1 (sign_command self (be_digits 32 (Z.shiftl hash_val 4))) d1
  = (e1, r) ->
  transport2 (sign_command self (be_digits 32 (Z.shiftl hash_val 4))) d2
  = (e2, r) ->
  snd (sign_hash transport1 self path hash_val w1)
  = snd (sign_hash transport2 self path hash_val w2).
Proof.
  intros Hh A1 A2 S1 S2.
  rewrite (sign_hash_run _ _ _ _ _ _ _ _ _ _ Hh A1 S1).
  rewrite (sign_hash_run _ _ _ _ _ _ _ _ _ _ Hh A2 S2).
  reflexivity.
Qed.

(* ================================================================= *)
(** ** The signer, from construction to signature *)

Section Signer.

Variable Dev : Type.
Variable connect : Z -> Dev -> Dev * result unit.
Variable transport : Apdu -> Dev -> Dev * result bytes.
Variable STARKNET_CLA : Z.
Variable PUBLIC_KEY_LENGTH : Z.
Variable ChainId AccountTransaction TypedData : Type.
Variable calculate_hash : AccountTransaction -> ChainId -> Z.
Variable message_hash : TypedData -> Z -> Z.

(** Running an operation on the signer that the constructor returns. *)
Lemma construct_then (A : Type) (s : string) (path : Bip32Path)
    (chain : ChainId) (w : World Dev) (d0 : Dev)
    (operation : LedgerSigner ChainId -> M Dev A) :
  _parse_derivation_path_str s = Ok path ->
  connect STARKNET_CLA (device w) = (d0, Ok tt) ->
  mbind (LedgerSigner_init connect STARKNET_CLA s chain) operation w
  = operation (MkSigner (MkApp (MkClient STARKNET_CLA)) path chain)
      (MkWorld d0 (sent w)).
Proof.
  intros Hparse Hc. unfold mbind.
  rewrite (valid_path_constructs _ _ _ _ _ _ _ _ _ Hparse Hc). reflexivity.
Qed.

(** X16: constructing a signer from a path string and signing a
    transaction sends two commands under the class byte [STARKNET_CLA]:
    the encoded path (24 bytes) with instruction 0, then the hash of the
    transaction for the signer's chain, shifted by 4 bits, on 32 bytes with
    instruction 2 and [p1 = 1]; a well-framed response gives the signature
    [r, s]. *)
Theorem signer_signs_transaction (s : string) (path : Bip32Path)
    (chain : ChainId) (transaction : AccountTransaction) (w : World Dev)
    (d0 d1 d2 : Dev) (ack response : bytes) :
  _parse_derivation_path_str s = Ok path ->
  connect STARKNET_CLA (device w) = (d0, Ok tt) ->
  0 <= calculate_hash transaction chain < 2 ^ 252 ->
  transport (MkApdu STARKNET_CLA 0 0 0 (encoding_of (m_elems path))) d0
  = (d1, Ok ack) ->
  transport
    (MkApdu STARKNET_CLA 2 1 0
       (be_digits 32 (Z.shiftl (calculate_hash transaction chain) 4))) d1
  = (d2, Ok response) ->
  well_framed_signature response = true ->
  mbind (LedgerSigner_init connect STARKNET_CLA s chain)
    (fun signer => sign_transaction transport calculate_hash signer transaction)
    w
  = (MkWorld d2
       (sent w
        ++ [MkApdu STARKNET_CLA 0 0 0 (encoding_of (m_elems path));
            MkApdu STARKNET_CLA 2 1 0
              (be_digits 32
                 (Z.shiftl (calculate_hash transaction chain) 4))]),
     Ok [int_from_bytes (slice 1 33 response);
         int_from_bytes (slice 33 65 response)])
  /\ len (encoding_of (m_elems path)) = 24.
Proof.
  intros Hparse Hc Hh H1 H2 Hframe. split.
  - rewrite (construct_then _ _ _ _ _ _ _ Hparse Hc).
    unfold sign_transaction. cbn [app derivation_path chain_id].
    rewrite (sign_hash_run Dev transport (MkApp (MkClient STARKNET_CLA)) path
               _ (MkWorld d0 (sent w)) d1 d2 ack (Ok response) Hh H1 H2).
    cbn [bind sent]. rewrite Hframe. reflexivity.
  - rewrite encoding_of_len, (parse_ok_six_elements _ _ Hparse). reflexivity.
Qed.

(** X17: a message whose hash does not fit is refused only after the
    device has been given the path.  Constructing a signer and signing a
    typed-data message whose hash is [2^252] or more raises the overflow
    error of the encoding; by then the register-path command has been
    sent, and the sign command never is. *)
Theorem signer_message_hash_overflow (s : string) (path : Bip32Path)
    (chain : ChainId) (typed_data : TypedData) (account_address : Z)
    (w : World Dev) (d0 d1 : Dev) (ack : bytes) :
  _parse_derivation_path_str s = Ok path ->
  connect STARKNET_CLA (device w) = (d0, Ok tt) ->
  2 ^ 252 <= message_hash typed_data account_address ->
  transport (MkApdu STARKNET_CLA 0 0 0 (encoding_of (m_elems path))) d0
  = (d1, Ok ack) ->
  mbind (LedgerSigner_init connect STARKNET_CLA s chain)
    (fun signer =>
       sign_message transport message_hash signer typed_data account_address)
    w
  = (MkWorld d1
       (sent w ++ [MkApdu STARKNET_CLA 0 0 0 (encoding_of (m_elems path))]),
     Raise (OverflowError "int too big to convert")).
Proof.
  intros Hparse Hc Hbig H1.
  rewrite (construct_then _ _ _ _ _ _ _ Hparse Hc).
  unfold sign_message. cbn [app derivation_path chain_id].
  apply (sign_hash_until_encoding Dev transport
           (MkApp (MkClient STARKNET_CLA)) path _ (MkWorld d0 (sent w))
           d1 ack _ H1).
  apply int_to_bytes_too_big. rewrite Z.shiftl_mul_pow2 by lia.
  change (256 ^ Z.of_nat 32) with (2 ^ 252 * 2 ^ 4). lia.
Qed.

(** X18: the [public_key] of a constructed signer asks the device once,
    without confirmation: one command under [STARKNET_CLA] with
    instruction 1, [p1 = 0], [p2 = 0] and the 24 bytes of the encoded path;
    a response of the expected length gives the key read from its bytes 1
    to 32. *)
Theorem signer_public_key (s : string) (path : Bip32Path)
    (chain : ChainId) (w : World Dev) (d0 d1 : Dev) (response : bytes) :
  _parse_derivation_path_str s = Ok path ->
  connect STARKNET_CLA (device w) = (d0, Ok tt) ->
  transport (MkApdu STARKNET_CLA 1 0 0 (encoding_of (m_elems path))) d0
  = (d1, Ok response) ->
  len response = PUBLIC_KEY_LENGTH ->
  mbind (LedgerSigner_init connect STARKNET_CLA s chain)
    (fun signer => public_key transport PUBLIC_KEY_LENGTH signer) w
  = (MkWorld d1
       (sent w ++ [MkApdu STARKNET_CLA 1 0 0 (encoding_of (m_elems path))]),
     Ok (int_from_bytes (slice 1 33 response)))
  /\ len (encoding_of (m_elems path)) = 24.
Proof.
  intros Hparse Hc H1 Hlen. split.
  - rewrite (construct_then _ _ _ _ _ _ _ Hparse Hc).
    unfold public_key. cbn [app derivation_path].
    rewrite (get_public_key_run Dev transport PUBLIC_KEY_LENGTH
               (MkApp (MkClient STARKNET_CLA)) path false
               (MkWorld d0 (sent w)) d1 (Ok response) H1).
    cbn [bind sent]. rewrite Hlen, Z.eqb_refl. reflexivity.
  - rewrite encoding_of_len, (parse_ok_six_elements _ _ Hparse). reflexivity.
Qed.

End Signer.

(* ================================================================= *)
(** ** The further properties on the scripted device *)

Lemma version_checks_length_witness :
  fst (version script_transport scenario_app (MkWorld [Ok [x01; x02; x03]] []))
  = MkWorld [] [MkApdu 90 0 0 0 []]
  /\ (len [x01; x02; x03] = 3 ->
      exists major minor patch,
        [x01; x02; x03] = [major; minor; patch]
        /\ snd (version script_transport scenario_app
                  (MkWorld [Ok [x01; x02; x03]] []))
           = Ok (str (int_of_byte major) ++ "." ++ str (int_of_byte minor)
                   ++ "." ++ str (int_of_byte patch))%string)
  /\ (len [x01; x02; x03] <> 3 ->
      snd (version script_transport scenario_app
             (MkWorld [Ok [x01; x02; x03]] []))
      = Raise (ValueError (unexpected_length 3 (len [x01; x02; x03])))).
Proof.
  apply (version_checks_length Script script_transport scenario_app
           (MkWorld [Ok [x01; x02; x03]] []) [] [x01; x02; x03]).
  reflexivity.
Defined.

(** The version 1.2.3, and a response that is too short. *)
Example version_of_three_bytes :
  snd (version script_transport scenario_app (MkWorld [Ok [x01; x02; x03]] []))
  = Ok "1.2.3".
Proof. reflexivity. Qed.

Example version_of_two_bytes :
  snd (version script_transport scenario_app (MkWorld [Ok [x01; x02]] []))
  = Raise (ValueError "Unexpected response length (expected: 3, actual: 2").
Proof. reflexivity. Qed.

(** A hash that could not be encoded, on a device that refuses the path:
    the error is the device's. *)
Lemma sign_hash_register_failure_witness :
  sign_hash script_transport scenario_app scenario_path (-1)
    (MkWorld [Raise (DeviceError 27013)] [])
  = (MkWorld [] [register_path_command scenario_app scenario_path],
     Raise (DeviceError 27013)).
Proof.
  apply (sign_hash_register_failure Script script_transport scenario_app
           scenario_path (-1) (MkWorld [Raise (DeviceError 27013)] []) []).
  reflexivity.
Defined.

Lemma sign_hash_sign_failure_witness :
  sign_hash script_transport scenario_app scenario_path 1
    (MkWorld [Ok []; Raise (DeviceError 27013)] [])
  = (MkWorld []
       [register_path_command scenario_app scenario_path;
        sign_command scenario_app (be_digits 32 (Z.shiftl 1 4))],
     Raise (DeviceError 27013)).
Proof.
  apply (sign_hash_sign_failure Script script_transport scenario_app
           scenario_path 1 (MkWorld [Ok []; Raise (DeviceError 27013)] [])
           [Raise (DeviceError 27013)] [] []).
  - lia.
  - reflexivity.
  - reflexivity.
Defined.

Lemma sign_hash_result_is_response_witness :
  exists r s,
    [scenario_r; scenario_s] = [r; s]
    /\ 0 <= r < 2 ^ 256
    /\ 0 <= s < 2 ^ 256
    /\ scenario_signature = x40 :: be_digits 32 r ++ be_digits 32 s.
Proof.
  apply (sign_hash_result_is_response Script script_transport scenario_app
           scenario_path 1 (signing_device scenario_signature)
           [Ok scenario_signature] [] [] scenario_signature).
  - lia.
  - reflexivity.
  - reflexivity.
  - vm_compute. reflexivity.
Defined.

Lemma get_public_key_reads_key_bytes_witness :
  snd (get_public_key script_transport 65 scenario_app scenario_path false
         (MkWorld [Ok scenario_public_key] []))
  = Ok (int_from_bytes (be_digits 32 scenario_r))
  /\ 0 <= int_from_bytes (be_digits 32 scenario_r) < 2 ^ 256
  /\ be_digits 32 (int_from_bytes (be_digits 32 scenario_r))
     = be_digits 32 scenario_r.
Proof.
  apply (get_public_key_reads_key_bytes Script script_transport 65
           scenario_app scenario_path false
           (MkWorld [Ok scenario_public_key] []) [] x04
           (be_digits 32 scenario_r) (be_digits 32 scenario_s)).
  - reflexivity.
  - reflexivity.
  - reflexivity.
Defined.

(** The device answers with two bytes; the error says 24. *)
Lemma get_public_key_error_reports_payload_length_witness :
  snd (get_public_key script_transport 65 scenario_app scenario_path false
         (MkWorld [Ok [x69; x85]] []))
  = Raise (ValueError (unexpected_length 65 24)).
Proof.
  apply (get_public_key_error_reports_payload_length Script script_transport
           65 scenario_app scenario_path_str scenario_path false
           (MkWorld [Ok [x69; x85]] []) [] [x69; x85]).
  - reflexivity.
  - reflexivity.
  - vm_compute. discriminate.
Defined.

Lemma sign_hash_ignores_acknowledgement_witness :
  snd (sign_hash script_transport scenario_app scenario_path 1
         (MkWorld [Ok []; Ok scenario_signature] []))
  = snd (sign_hash script_transport scenario_app scenario_path 1
           (MkWorld [Ok [x90; x00]; Ok scenario_signature] [])).
Proof.
  apply (sign_hash_ignores_acknowledgement Script Script script_transport
           script_transport scenario_app scenario_path 1
           (MkWorld [Ok []; Ok scenario_signature] [])
           (MkWorld [Ok [x90; x00]; Ok scenario_signature] [])
           [Ok scenario_signature] [] [Ok scenario_signature] []
           [] [x90; x00] (Ok scenario_signature)).
  - lia.
  - reflexivity.
  - reflexivity.
  - reflexivity.
  - reflexivity.
Defined.

Lemma signer_signs_transaction_witness :
  mbind (LedgerSigner_init script_connect 90 scenario_path_str tt)
    (fun signer =>
       sign_transaction script_transport (fun tx (_ : unit) => tx) signer 1)
    (signing_device scenario_signature)
  = (MkWorld []
       [MkApdu 90 0 0 0 (encoding_of (m_elems scenario_path));
        MkApdu 90 2 1 0 (be_digits 32 (Z.shiftl 1 4))],
     Ok [int_from_bytes (slice 1 33 scenario_signature);
         int_from_bytes (slice 33 65 scenario_signature)])
  /\ len (encoding_of (m_elems scenario_path)) = 24.
Proof.
  apply (signer_signs_transaction Script script_connect script_transport 90
           unit Z (fun tx (_ : unit) => tx) scenario_path_str scenario_path
           tt 1 (signing_device scenario_signature)
           [Ok []; Ok scenario_signature] [Ok scenario_signature] []
           [] scenario_signature).
  - reflexivity.
  - reflexivity.
  - cbv beta. lia.
  - reflexivity.
  - reflexivity.
  - reflexivity.
Defined.

Lemma signer_message_hash_overflow_witness :
  mbind (LedgerSigner_init script_connect 90 scenario_path_str tt)
    (fun signer =>
       sign_message script_transport (fun data address => data + address)
         signer (2 ^ 252) 0)
    (signing_device scenario_signature)
  = (MkWorld [Ok scenario_signature]
       [MkApdu 90 0 0 0 (encoding_of (m_elems scenario_path))],
     Raise (OverflowError "int too big to convert")).
Proof.
  apply (signer_message_hash_overflow Script script_connect script_transport
           90 unit Z (fun data address => data + address) scenario_path_str
           scenario_path tt (2 ^ 252) 0 (signing_device scenario_signature)
           [Ok []; Ok scenario_signature] [Ok scenario_signature] []).
  - reflexivity.
  - reflexivity.
  - cbv beta. lia.
  - reflexivity.
Defined.

Lemma signer_public_key_witness :
  mbind (LedgerSigner_init script_connect 90 scenario_path_str tt)
    (fun signer => public_key script_transport 65 signer)
    (MkWorld [Ok scenario_public_key] [])
  = (MkWorld [] [MkApdu 90 1 0 0 (encoding_of (m_elems scenario_path))],
     Ok (int_from_bytes (slice 1 33 scenario_public_key)))
  /\ len (encoding_of (m_elems scenario_path)) = 24.
Proof.
  apply (signer_public_key Script script_connect script_transport 90 65 unit
           scenario_path_str scenario_path tt
           (MkWorld [Ok scenario_public_key] []) [Ok scenario_public_key] []
           scenario_public_key).
  - reflexivity.
  - reflexivity.
  - reflexivity.
  - reflexivity.
Defined.

(* ================================================================= *)
(** ** Two more orderings the code fixes *)

Section Orderings.

Variable Dev : Type.
Variable connect : Z -> Dev -> Dev * result unit.
Variable transport : Apdu -> Dev -> Dev * result bytes.
Variable STARKNET_CLA : Z.
Variable ChainId : Type.

(** X10: the constructor opens the Ledger client before it looks at the
    path string.  When the client cannot be opened the constructor raises
    the client's error, for a valid and for an invalid path string alike,
    and sends nothing. *)
Theorem construction_opens_device_first (s : string) (chain : ChainId)
    (w : World Dev) (d : Dev) (e : exn) :
  connect STARKNET_CLA (device w) = (d, Raise e) ->
  LedgerSigner_init connect STARKNET_CLA s chain w
  = (MkWorld d (sent w), Raise e).
Proof.
  intros Hc.
  unfold LedgerSigner_init, LedgerStarknetApp_init, LedgerClient_init, mbind.
  rewrite Hc. reflexivity.
Qed.

(** X19: the text of the error of [sign_hash] gives [SIGNATURE_LENGTH],
    64, as the expected length, although 65 bytes are required.  A response
    of 64 bytes is refused with "expected: 64, actual: 64", and a response
    of 65 bytes with a wrong tag with "expected: 64, actual: 65". *)
Theorem sign_hash_error_text (self : LedgerStarknetApp) (path : Bip32Path)
    (hash_val : Z) (w : World Dev) (d1 d2 : Dev) (ack response : bytes) :
  0 <= hash_val < 2 ^ 252 ->
  transport (register_path_command self path) (device w) = (d1, Ok ack) ->
  transport (sign_command self (be_digits 32 (Z.shiftl hash_val 4))) d1
  = (d2, Ok response) ->
  (len response = 64 ->
     snd (sign_hash transport self path hash_val w)
     = Raise (ValueError
                "Unexpected response length (expected: 64, actual: 64"))
  /\ (len response = 65 ->
      nth_error (map int_of_byte response) 0 <> Some 64 ->
      snd (sign_hash transport self path hash_val w)
      = Raise (ValueError
                 "Unexpected response length (expected: 64, actual: 65")).
Proof.
  intros Hh H1 H2. rewrite (sign_hash_run _ _ _ _ _ _ _ _ _ _ Hh H1 H2).
  cbn [snd bind]. unfold well_framed_signature. split.
  - intros Hlen. rewrite Hlen. reflexivity.
  - intros Hlen Htag. rewrite Hlen.
    destruct response as [|tag rest]; [reflexivity|].
    cbn [map nth_error] in Htag.
    destruct (Z.eqb_spec (int_of_byte tag) SIGNATURE_LENGTH) as [E|];
      [rewrite E in Htag; contradiction|reflexivity].
Qed.

End Orderings.

Lemma construction_opens_device_first_witness :
  LedgerSigner_init (fun (_ : Z) (d : Script) => (d, Raise (DeviceError 1)))
    90 "" tt (MkWorld [] [])
  = (MkWorld [] [], Raise (DeviceError 1)).
Proof.
  apply (construction_opens_device_first Script
           (fun (_ : Z) (d : Script) => (d, Raise (DeviceError 1))) 90 unit
           "" tt (MkWorld [] []) [] (DeviceError 1)).
  reflexivity.
Defined.

Lemma sign_hash_error_text_witness :
  snd (sign_hash script_transport scenario_app scenario_path 1
         (signing_device (be_digits 32 scenario_r ++ be_digits 32 scenario_s)))
  = Raise (ValueError "Unexpected response length (expected: 64, actual: 64").
Proof.
  refine (proj1 (sign_hash_error_text Script script_transport scenario_app
                   scenario_path 1
                   (signing_device
                      (be_digits 32 scenario_r ++ be_digits 32 scenario_s))
                   [Ok (be_digits 32 scenario_r ++ be_digits 32 scenario_s)]
                   [] [] (be_digits 32 scenario_r ++ be_digits 32 scenario_s)
                   _ _ _) _).
  - lia.
  - reflexivity.
  - reflexivity.
  - reflexivity.
Defined.

(* ================================================================= *)
(** ** [int] at its limits *)

(** 4300 digits are read, 4301 are refused, leading zeros included. *)
Example int_digit_limit :
  Py.int (zeros 4300) = Ok 0
  /\ Py.int (zeros 4301) = Raise (IntLiteralError (zeros 4301)).
Proof. split; vm_compute; reflexivity. Qed.

(** A no-break space or a next-line character around the digits is white
    space; inside the digits it is not. *)
Example int_white_space :
  Py.int (String (ascii_of_nat 160) ("12" ++ String (ascii_of_nat 133) ""))
  = Ok 12
  /\ Py.int ("1" ++ String (ascii_of_nat 160) "2")
     = Raise (IntLiteralError ("1" ++ String (ascii_of_nat 160) "2")).
Proof. split; reflexivity. Qed.

(** An element of 4301 zeros is of the written syntax, is not valid, and is
    refused by [int]. *)
Example long_element_refused :
  PathSyntax.well_formed_path_string ("m/2645'/0/0/0/0/" ++ zeros 4301) = true
  /\ PathSyntax.valid_path_string ("m/2645'/0/0/0/0/" ++ zeros 4301) = false
  /\ _parse_derivation_path_str ("m/2645'/0/0/0/0/" ++ zeros 4301)
     = Raise (IntLiteralError (zeros 4301)).
Proof. repeat split; vm_compute; reflexivity. Qed.
